(** * Module loading in the terraform parser: a verification development

    Shallow embedding of [internal/pkg/parser/load_module.go]:
    [getModuleKeyName], [getModuleBlocks], [loadModule], [loadModules] and
    the [moduleLoadError] type, together with the parts of the Go standard
    library they call ([strings], [regexp] for the one expression used,
    [path/filepath] on Unix).

    Go strings are byte sequences; they are embedded as [string] (a list of
    8-bit [ascii]).  The bytes that matter below - '[', ']', ':', '.', '/'
    and the line feed - are ASCII, and an ASCII byte never occurs inside a
    multi-byte UTF-8 sequence, so working on bytes agrees with Go's
    rune-wise processing. *)

From Stdlib Require Import String Ascii List Bool Arith Lia.
From Equations Require Import Equations.
Import ListNotations.

Open Scope list_scope.
Open Scope string_scope.

(* ===================================================================== *)
(** ** Go's [strings] package, as far as it is used                       *)
(* ===================================================================== *)

Module strings.

(** [strings.HasPrefix(s, prefix)] *)
Definition HasPrefix (s prefix : string) : bool := String.prefix prefix s.

(** [strings.TrimPrefix(s, prefix)]: [s] without the leading [prefix],
    or [s] itself when it does not start with [prefix]. *)
Definition TrimPrefix (s prefix : string) : string :=
  if HasPrefix s prefix
  then substring (String.length prefix) (String.length s - String.length prefix) s
  else s.

(** [strings.Split(s, sep)] for a one-byte separator: the pieces between
    the separators, one more than there are separators. *)
Fixpoint Split (s : string) (sep : ascii) : list string :=
  match s with
  | EmptyString => [EmptyString]
  | String c r =>
      if Ascii.eqb c sep then EmptyString :: Split r sep
      else match Split r sep with
           | piece :: pieces => String c piece :: pieces
           | [] => [String c EmptyString]
           end
  end.

(** [strings.Join(elems, sep)] *)
Fixpoint Join (elems : list string) (sep : string) : string :=
  match elems with
  | [] => EmptyString
  | [e] => e
  | e :: rest => e ++ sep ++ Join rest sep
  end.

(** Occurrence of a byte in a string. *)
Fixpoint contains (c : ascii) (s : string) : bool :=
  match s with
  | EmptyString => false
  | String d r => Ascii.eqb d c || contains c r
  end.

End strings.

(* ===================================================================== *)
(** ** The index expression [\[.+?\]]                                     *)
(* ===================================================================== *)

(** [regexp.MustCompile(`\[.+?\]`)]: an opening bracket, one or more
    characters other than a line feed (as few as possible), a closing
    bracket.  Go returns the leftmost match, and [ReplaceAllString] goes
    through the non-overlapping matches from left to right. *)

Module indexRegExp.

Definition LF : ascii := "010"%char.

(** After the first character of the group has been consumed: go on to
    the first ']' of the line; the result is what follows it. *)
Fixpoint scanClose (s : string) : option string :=
  match s with
  | EmptyString => None
  | String c r =>
      if Ascii.eqb c "]" then Some r
      else if Ascii.eqb c LF then None
      else scanClose r
  end.

(** A match that starts at the first byte of [s]; the result is the rest
    of [s] behind the match. *)
Definition matchAt (s : string) : option string :=
  match s with
  | String a (String c r) =>
      if Ascii.eqb a "[" && negb (Ascii.eqb c LF) then scanClose r else None
  | _ => None
  end.

(** The rest behind a match is shorter than the string: the replacement
    terminates. *)
Lemma scanClose_length s rest :
  scanClose s = Some rest -> String.length rest < String.length s.
Proof.
  revert rest; induction s as [|c r IH]; intros rest; simpl; [discriminate|].
  destruct (Ascii.eqb c "]").
  - intros [= <-]; lia.
  - destruct (Ascii.eqb c LF); [discriminate|].
    intros H; apply IH in H; lia.
Qed.

Lemma matchAt_length s rest :
  matchAt s = Some rest -> S (String.length rest) < String.length s.
Proof.
  destruct s as [|a [|c r]]; simpl; try discriminate.
  destruct (Ascii.eqb a "[" && negb (Ascii.eqb c LF)); [|discriminate].
  intros H; apply scanClose_length in H; lia.
Qed.

(** Case analysis on a value that keeps the equation. *)
Definition inspect {A : Type} (x : A) : {y : A | x = y} := exist _ x eq_refl.

#[local] Unset Equations With Funext.

(** [indexRegExp.ReplaceAllString] with the empty replacement: every match
    is dropped, the bytes between the matches are kept. *)
Equations? ReplaceAllString (src : string) : string by wf (String.length src) lt :=
  ReplaceAllString EmptyString := EmptyString;
  ReplaceAllString (String c r) with inspect (matchAt (String c r)) := {
    | exist _ (Some rest) _ => ReplaceAllString rest;
    | exist _ None _ => String c (ReplaceAllString r) }.
Proof.
  change (matchAt (String c r) = Some rest) in e.
  apply matchAt_length in e. simpl in e. lia.
Qed.

(** Is there a match anywhere in [s]? *)
Fixpoint hasMatch (s : string) : bool :=
  match s with
  | EmptyString => false
  | String c r =>
      match matchAt s with
      | Some _ => true
      | None => hasMatch r
      end
  end.

(** A bracketed substring: an opening bracket with a closing bracket
    somewhere behind it. *)
Fixpoint bracketed (s : string) : bool :=
  match s with
  | EmptyString => false
  | String c r => (Ascii.eqb c "[" && strings.contains "]" r) || bracketed r
  end.

(** An index group: brackets around at least one byte, all on one
    line. *)
Definition indexGroupIn (s : string) : Prop :=
  exists pre c mid post,
    strings.contains LF (String c mid) = false
    /\ s = pre ++ String "[" (String c (mid ++ String "]" post)).

End indexRegExp.

(* ===================================================================== *)
(** ** Errors                                                             *)
(* ===================================================================== *)

(** Go's [error] values.  [errorString] stands for the errors made by
    [errors.New] and [fmt.Errorf] (without [%w]) and for the errors of the
    collaborators, each known by its message; [LoadError] is a
    [*moduleLoadError]. *)
Inductive error : Type :=
| errorString (msg : string)
| LoadError (m : moduleLoadError)
with moduleLoadError : Type :=
| Build_moduleLoadError (source : string) (err : error).

Definition source (m : moduleLoadError) : string :=
  match m with Build_moduleLoadError s _ => s end.

Definition err (m : moduleLoadError) : error :=
  match m with Build_moduleLoadError _ e => e end.

(** [func (m *moduleLoadError) Error() string], and [Error()] of the other
    errors. *)
Fixpoint Error (e : error) : string :=
  match e with
  | errorString msg => msg
  | LoadError m => moduleLoadError_Error m
  end
with moduleLoadError_Error (m : moduleLoadError) : string :=
  match m with
  | Build_moduleLoadError s e =>
      "failed to load module '" ++ s ++ "': " ++ Error e
  end.

(** [errors.As(err, &loadErr)] with [loadErr] of type [*moduleLoadError].
    Neither kind of error has an [Unwrap] method, so only the error itself
    is looked at. *)
Definition errors_As (e : error) : option moduleLoadError :=
  match e with
  | LoadError m => Some m
  | errorString _ => None
  end.

(** A value together with an error, as in [(T, error)]. *)
Inductive result (A : Type) : Type :=
| Ok (a : A)
| Err (e : error).
Arguments Ok {A} a.
Arguments Err {A} e.

(* ===================================================================== *)
(** ** Effects: what a call writes                                        *)
(* ===================================================================== *)

(** The functions write to standard error, to the debug log and to the
    metrics.  A computation returns its value with the events it produced,
    oldest first. *)
Inductive event : Type :=
| Stderr (text : string)                    (* fmt.Fprintf(os.Stderr, ...) *)
| TimerStart                                (* evalTimer.Start() *)
| TimerStop                                 (* evalTimer.Stop() *)
| DebugAdded (n : nat) (filename : string)  (* debug.Log("Added %d blocks from %s...") *)
| DebugLoaded (path range : string)         (* debug.Log("Loaded module '%s' (requested at %s)") *)
| CounterModules.                           (* metrics.Counter("counts", "modules").Increment(1) *)

Definition M (A : Type) : Type := (A * list event)%type.

Definition ret {A} (a : A) : M A := (a, []).

Definition bind {A B} (m : M A) (k : A -> M B) : M B :=
  let '(a, t1) := m in
  let '(b, t2) := k a in
  (b, (t1 ++ t2)%list).

Definition emit (ev : event) : M unit := (tt, [ev]).

Notation "x <- m ;; k" := (bind m (fun x => k))
  (at level 61, m at next level, right associativity).
Notation "m ;;; k" := (bind m (fun _ => k))
  (at level 61, right associativity).

Arguments bind : simpl never.
Arguments emit : simpl never.
Arguments ret : simpl never.

Definition NL : string := String "010"%char EmptyString.

(* ===================================================================== *)
(** ** Data model                                                         *)
(* ===================================================================== *)

(** Modelled from the spec: the type declarations of [cty.Value] are not
    part of the file; the spec's closed sum over the value kinds (string,
    number, bool, list, map, null) is used, and only the string case
    carries its content. *)
Inductive cty_Value : Type :=
| cty_String (s : string)
| cty_Number
| cty_Bool
| cty_List
| cty_Map
| cty_Null.

(** [sourceVal.Type() == cty.String] and [sourceVal.AsString()], on the
    values above, which have content.  A value that has the type string
    and no content makes [AsString] panic; such values, and the runs of
    the loader on them, are the subject of the part on values without
    content below. *)
Definition isString (v : cty_Value) : bool :=
  match v with cty_String _ => true | _ => false end.

Definition AsString (v : cty_Value) : string :=
  match v with cty_String s => s | _ => EmptyString end.

(** Modelled from the spec: [block.Attribute] and [block.Block] are
    declared outside the file.  An attribute has a name and an evaluated
    value; of a block the loader uses its type, its label, its attributes
    and the source range of its metadata (as printed).  A block maps the
    names of its attributes to their values, so it has no two attributes
    with one name; the list is the attributes in the order in which
    [b.Attributes()] returns them, and the statements about the
    attributes of a block assume the names distinct. *)
Record Attribute : Type := { attr_Name : string; attr_Value : cty_Value }.

Record Block : Type := {
  Type_ : string;
  Label : string;
  Attributes : list Attribute;
  Range : string
}.

(** [blocks.OfType(t)] *)
Definition OfType (blocks : list Block) (t : string) : list Block :=
  filter (fun b => String.eqb (Type_ b) t) blocks.

(** Modelled from the spec: an entry [{Key, Dir}] of the module metadata
    and the table of entries. *)
Record ModuleMetadata : Type := { Key : string; Dir : string }.

Record ModulesMetadata : Type := { metadata_Modules : list ModuleMetadata }.

(** The fields of [Evaluator] that the file reads. *)
Record Evaluator : Type := {
  moduleName : string;
  blocks : list Block;
  moduleMetadata : option ModulesMetadata;   (* a pointer: [None] is nil *)
  projectRootPath : string;
  modulePath : string
}.

(* ===================================================================== *)
(** ** The platform and the collaborators                                 *)
(* ===================================================================== *)

(** [os.PathSeparator] and the functions of [path/filepath] depend on the
    platform.  The laws are those of the Go documentation that the loader
    relies on; [unix] below is an instance. *)
Class Platform : Type := {
  PathSeparator : ascii;
  filepath_Clean : string -> string;
  filepath_Join : string -> string -> string;
  filepath_IsAbs : string -> bool;
  Clean_not_empty : forall p, filepath_Clean p <> EmptyString;
  Clean_idempotent : forall p,
    filepath_Clean (filepath_Clean p) = filepath_Clean p;
  Join_cleaned : forall a b, b <> EmptyString ->
    filepath_Clean (filepath_Join a b) = filepath_Join a b;
  Clean_IsAbs : forall p, filepath_IsAbs (filepath_Clean p) = filepath_IsAbs p;
  Join_IsAbs : forall a b, filepath_IsAbs a = true ->
    filepath_IsAbs (filepath_Join a b) = true
}.

(** What the file calls in the rest of the package: the files of a
    directory, the blocks and ignores of a file (a Go triple: results may
    come with an error), the constructors of [block], and the expansion of
    [count] and [for_each].  They are taken by what they return: what a
    collaborator writes itself while it runs ([LoadDirectory] writes a
    warning for a file it cannot parse) is not among the events of a
    call, which are the events of the lines of this file. *)
Class Collaborators : Type := {
  File : Type;
  hcl_Block : Type;
  Ignore : Type;
  block_Context : Type;
  LoadDirectory : string -> bool -> result (list File);
  LoadBlocksFromFile : File -> list hcl_Block * list Ignore * option error;
  DefRange_Filename : hcl_Block -> string;
  block_NewContext : block_Context;
  block_New : hcl_Block -> block_Context -> option Block -> option Block -> Block;
  expandBlocks : Evaluator -> list Block -> list Block
}.

(* ===================================================================== *)
(** ** The functions of [load_module.go]                                  *)
(* ===================================================================== *)

(** The loop of [getModuleKeyName] over the segments of the module name;
    [keyName] is the string built so far. *)
Fixpoint keyNameLoop (modules : list string) (keyName : string) : string :=
  match modules with
  | [] => keyName
  | m :: rest =>
      let keyName := keyName ++ strings.TrimPrefix m "module." in
      let keyName := match rest with      (* i != len(modules)-1 *)
                     | [] => keyName
                     | _ :: _ => keyName ++ "."
                     end in
      keyNameLoop rest keyName
  end.

Definition getModuleKeyName (e : Evaluator) (name : string) : string :=
  if String.eqb (moduleName e) "root"
  then indexRegExp.ReplaceAllString name
  else
    let modules := strings.Split (moduleName e) ":" in
    let keyName := keyNameLoop modules EmptyString in
    indexRegExp.ReplaceAllString (keyName ++ "." ++ name).

Section Loader.

Context {P : Platform} {C : Collaborators}.

(** Modelled from the spec: [block.Module] as built by
    [block.NewHCLModule]: project root, directory, blocks, ignores. *)
Record block_Module : Type := NewHCLModule {
  module_rootPath : string;
  module_modulePath : string;
  module_blocks : list Block;
  module_ignores : list Ignore
}.

Record ModuleDefinition : Type := {
  Name : string;
  Path : string; Definition_ : Block;
  Modules : list block_Module
}.

(** The loop of [getModuleBlocks] over the files, with the blocks and
    ignores collected so far. *)
Fixpoint getModuleBlocksLoop (b : Block) (moduleCtx : block_Context)
    (stopOnHCLError : bool) (moduleFiles : list File)
    (blocks : list Block) (ignores : list Ignore)
  : M (list Block * list Ignore * option error) :=
  match moduleFiles with
  | [] => ret (blocks, ignores, None)
  | file :: rest =>
      let '(fileBlocks, fileIgnores, err) := LoadBlocksFromFile file in
      match err with
      | Some err =>
          if stopOnHCLError then ret ([], [], Some err)
          else
            emit (Stderr ("WARNING: HCL error: " ++ Error err ++ NL)) ;;;
            getModuleBlocksLoop b moduleCtx stopOnHCLError rest blocks ignores
      | None =>
          match fileBlocks with
          | first :: _ =>
              emit (DebugAdded (List.length fileBlocks) (DefRange_Filename first))
          | [] => ret tt
          end ;;;
          let blocks :=
            (blocks ++ map (fun fileBlock =>
                              block_New fileBlock moduleCtx (Some b) None)
                           fileBlocks)%list in
          let ignores := (ignores ++ fileIgnores)%list in
          getModuleBlocksLoop b moduleCtx stopOnHCLError rest blocks ignores
      end
  end.

Definition getModuleBlocks (b : Block) (modulePath : string)
    (stopOnHCLError : bool) : M (list Block * list Ignore * option error) :=
  match LoadDirectory modulePath stopOnHCLError with
  | Err err => ret ([], [], Some err)
  | Ok moduleFiles =>
      let moduleCtx := block_NewContext in
      getModuleBlocksLoop b moduleCtx stopOnHCLError moduleFiles [] []
  end.

(** Lines 110-119 of [loadModule]: the value of the last string-typed
    attribute called "source", or the empty string when there is none. *)
Definition readSource (attrs : list Attribute) : string :=
  fold_left
    (fun source attr =>
       if String.eqb (attr_Name attr) "source"
       then if isString (attr_Value attr)
            then AsString (attr_Value attr)
            else source
       else source)
    attrs EmptyString.

(** Lines 134-139: the scan of the metadata for the key; the result is
    the empty string when no entry has the key. *)
Fixpoint scanMetadata (e : Evaluator) (modules : list ModuleMetadata)
    (name : string) : string :=
  match modules with
  | [] => EmptyString
  | module :: rest =>
      if String.eqb (Key module) name
      then filepath_Clean (filepath_Join (projectRootPath e) (Dir module))
      else scanMetadata e rest name
  end.

(** Lines 155-170: loading from the directory that was found. *)
Definition loadResolved (e : Evaluator) (b : Block) (source : string)
    (modulePath : string) (stopOnHCLError : bool)
  : M (result ModuleDefinition) :=
  r <- getModuleBlocks b modulePath stopOnHCLError ;;
  let '(blocks, ignores, err) := r in
  match err with
  | Some err => ret (Err (LoadError (Build_moduleLoadError source err)))
  | None =>
      emit (DebugLoaded modulePath (Range b)) ;;;
      emit CounterModules ;;;
      ret (Ok {| Name := Label b;
                 Path := modulePath;
                 Definition_ := b;
                 Modules := [NewHCLModule (projectRootPath e) modulePath
                                          blocks ignores] |})
  end.

Definition loadModule (e : Evaluator) (b : Block) (stopOnHCLError : bool)
  : M (result ModuleDefinition) :=
  if String.eqb (Label b) EmptyString
  then ret (Err (errorString ("module without label at " ++ Range b)))
  else
    emit TimerStart ;;;
    let source := readSource (Attributes b) in
    emit TimerStop ;;;
    if String.eqb source EmptyString
    then ret (Err (errorString
                     ("could not read module source attribute at " ++ Range b)))
    else
      let resolved :=                       (* the variable [modulePath] *)
        match moduleMetadata e with
        | Some metadata =>
            let name := getModuleKeyName e (Label b) in
            scanMetadata e (metadata_Modules metadata) name
        | None => EmptyString
        end in
      if String.eqb resolved EmptyString
      then
        if negb (strings.HasPrefix source
                   (String "." (String PathSeparator EmptyString)))
           && negb (strings.HasPrefix source
                      (String "." (String "." (String PathSeparator EmptyString))))
        then ret (Err (LoadError
                         (Build_moduleLoadError source
                            (errorString "missing source code"))))
        else loadResolved e b source
                          (filepath_Join (modulePath e) source)
                          stopOnHCLError
      else loadResolved e b source resolved stopOnHCLError.

(** Lines 72-78: is there a collected failure with this source? *)
Definition found (loadErrors : list moduleLoadError)
    (loadErr : moduleLoadError) : bool :=
  existsb (fun fm => String.eqb (source fm) (source loadErr)) loadErrors.

(** The loop of [loadModules] over the expanded module blocks, with the
    definitions and the load failures collected so far. *)
Fixpoint loadModulesLoop (e : Evaluator) (stopOnHCLError : bool)
    (expanded : list Block)
    (moduleDefinitions : list ModuleDefinition)
    (loadErrors : list moduleLoadError)
  : M (list ModuleDefinition * list moduleLoadError) :=
  match expanded with
  | [] => ret (moduleDefinitions, loadErrors)
  | moduleBlock :: rest =>
      if String.eqb (Label moduleBlock) EmptyString
      then loadModulesLoop e stopOnHCLError rest moduleDefinitions loadErrors
      else
        r <- loadModule e moduleBlock stopOnHCLError ;;
        match r with
        | Err err =>
            match errors_As err with
            | Some loadErr =>
                let loadErrors :=
                  if found loadErrors loadErr then loadErrors
                  else (loadErrors ++ [loadErr])%list in
                loadModulesLoop e stopOnHCLError rest moduleDefinitions loadErrors
            | None =>
                emit (Stderr ("WARNING: Failed to load module: "
                                ++ Error err ++ NL)) ;;;
                loadModulesLoop e stopOnHCLError rest moduleDefinitions loadErrors
            end
        | Ok moduleDefinition =>
            loadModulesLoop e stopOnHCLError rest
              (moduleDefinitions ++ [moduleDefinition])%list loadErrors
        end
  end.

(** Lines 90-95: the report of the collected load failures. *)
Definition reportLoadErrors (loadErrors : list moduleLoadError) : list event :=
  match loadErrors with
  | [] => []
  | _ :: _ =>
      Stderr ("WARNING: Did you forget to 'terraform init'? "
                ++ "The following modules failed to load:" ++ NL)
      :: map (fun err => Stderr (" - " ++ source err ++ NL)) loadErrors
  end.

(** [loadModules] on the blocks that [expandBlocks] returned. *)
Definition loadModulesOf (e : Evaluator) (stopOnHCLError : bool)
    (expanded : list Block) : M (list ModuleDefinition) :=
  r <- loadModulesLoop e stopOnHCLError expanded [] [] ;;
  let '(moduleDefinitions, loadErrors) := r in
  (moduleDefinitions, reportLoadErrors loadErrors).

Definition loadModules (e : Evaluator) (stopOnHCLError : bool)
  : M (list ModuleDefinition) :=
  let blocks := blocks e in
  let expanded := expandBlocks e (OfType blocks "module") in
  loadModulesOf e stopOnHCLError expanded.

End Loader.

(* ===================================================================== *)
(** ** Values without content, and the panic of [AsString]                *)
(* ===================================================================== *)

(** Beside the values above, [attr.Value()] can return a value that has a
    type and no content: for [source = true ? null : "./child"] it is the
    null of type string.  Its [Type()] is [cty.String], so it passes the
    test of line 115, and [AsString] panics on it.  Nothing in the file
    recovers from a panic.  The functions above are the loader on values
    with content; the functions of this part run the same lines on all
    values, and a run either returns or panics, with the events written
    until then.  [nullString] stands for a value whose type is string and
    on which [AsString] panics. *)
Inductive evaluated : Type :=
| known (v : cty_Value)
| nullString.

Record EvaluatedAttribute : Type := {
  ea_Name : string;
  ea_Value : evaluated
}.

Record EvaluatedBlock : Type := {
  eb_Type : string;
  eb_Label : string;
  eb_Attributes : list EvaluatedAttribute;
  eb_Range : string
}.

Inductive outcome (A : Type) : Type :=
| Returned (a : A)
| Panicked.
Arguments Returned {A} a.
Arguments Panicked {A}.

Definition R (A : Type) : Type := (outcome A * list event)%type.

(** [sourceVal.Type() == cty.String] *)
Definition typeIsString (v : evaluated) : bool :=
  match v with
  | known v => isString v
  | nullString => true
  end.

(** [sourceVal.AsString()] *)
Definition AsStringRun (v : evaluated) : outcome string :=
  match v with
  | known v => Returned (AsString v)
  | nullString => Panicked
  end.

(** Lines 112-119: the loop over the attributes, with [source] as it
    stands. *)
Fixpoint readSourceRun (attrs : list EvaluatedAttribute) (source : string)
  : outcome string :=
  match attrs with
  | [] => Returned source
  | attr :: rest =>
      if String.eqb (ea_Name attr) "source"
      then if typeIsString (ea_Value attr)
           then match AsStringRun (ea_Value attr) with
                | Returned s => readSourceRun rest s
                | Panicked => Panicked
                end
           else readSourceRun rest source
      else readSourceRun rest source
  end.

(** The attribute and the block of the first part for a block that is
    past lines 112-119: the attributes with their values; a value without
    content, which can then only belong to an attribute that the loader
    does not read, is kept as the null. *)
Definition attributeOf (attr : EvaluatedAttribute) : Attribute :=
  {| attr_Name := ea_Name attr;
     attr_Value := match ea_Value attr with
                   | known v => v
                   | nullString => cty_Null
                   end |}.

Definition blockOf (eb : EvaluatedBlock) : Block :=
  {| Type_ := eb_Type eb;
     Label := eb_Label eb;
     Attributes := map attributeOf (eb_Attributes eb);
     Range := eb_Range eb |}.

(** A block of the first part as an evaluated block. *)
Definition evaluatedBlock (b : Block) : EvaluatedBlock :=
  {| eb_Type := Type_ b;
     eb_Label := Label b;
     eb_Attributes :=
       map (fun attr => {| ea_Name := attr_Name attr;
                           ea_Value := known (attr_Value attr) |})
           (Attributes b);
     eb_Range := Range b |}.

(** The attribute is called "source" and its value is the null of type
    string. *)
Definition nullSourceAttribute (attr : EvaluatedAttribute) : bool :=
  String.eqb (ea_Name attr) "source"
  && match ea_Value attr with
     | nullString => true
     | known _ => false
     end.

(** The block has a label and such an attribute. *)
Definition nullSource (eb : EvaluatedBlock) : bool :=
  negb (String.eqb (eb_Label eb) EmptyString)
  && existsb nullSourceAttribute (eb_Attributes eb).

Section Runs.

Context {P : Platform} {C : Collaborators}.

(** Lines 123-170 of [loadModule], for the source that was read. *)
Definition loadFrom (e : Evaluator) (b : Block) (source : string)
    (stopOnHCLError : bool) : M (result ModuleDefinition) :=
  if String.eqb source EmptyString
  then ret (Err (errorString
                   ("could not read module source attribute at " ++ Range b)))
  else
    let resolved :=
      match moduleMetadata e with
      | Some metadata =>
          let name := getModuleKeyName e (Label b) in
          scanMetadata e (metadata_Modules metadata) name
      | None => EmptyString
      end in
    if String.eqb resolved EmptyString
    then
      if negb (strings.HasPrefix source
                 (String "." (String PathSeparator EmptyString)))
         && negb (strings.HasPrefix source
                    (String "." (String "." (String PathSeparator EmptyString))))
      then ret (Err (LoadError
                       (Build_moduleLoadError source
                          (errorString "missing source code"))))
      else loadResolved e b source
                        (filepath_Join (modulePath e) source)
                        stopOnHCLError
    else loadResolved e b source resolved stopOnHCLError.

(** [loadModule] on an evaluated block. *)
Definition loadModuleRun (e : Evaluator) (eb : EvaluatedBlock)
    (stopOnHCLError : bool) : R (result ModuleDefinition) :=
  let b := blockOf eb in
  if String.eqb (Label b) EmptyString
  then (Returned (Err (errorString ("module without label at " ++ Range b))),
        [])
  else
    (* evalTimer.Start() *)
    match readSourceRun (eb_Attributes eb) EmptyString with
    | Panicked => (Panicked, [TimerStart])
    | Returned source =>
        (* evalTimer.Stop() *)
        let '(r, t) := loadFrom e b source stopOnHCLError in
        (Returned r, TimerStart :: TimerStop :: t)
    end.

(** The loop of [loadModules] on evaluated blocks: a panic of
    [loadModule] ends it. *)
Fixpoint loadModulesLoopRun (e : Evaluator) (stopOnHCLError : bool)
    (expanded : list EvaluatedBlock)
    (moduleDefinitions : list ModuleDefinition)
    (loadErrors : list moduleLoadError)
  : R (list ModuleDefinition * list moduleLoadError) :=
  match expanded with
  | [] => (Returned (moduleDefinitions, loadErrors), [])
  | moduleBlock :: rest =>
      if String.eqb (eb_Label moduleBlock) EmptyString
      then loadModulesLoopRun e stopOnHCLError rest moduleDefinitions loadErrors
      else
        match loadModuleRun e moduleBlock stopOnHCLError with
        | (Panicked, t) => (Panicked, t)
        | (Returned (Err err), t) =>
            match errors_As err with
            | Some loadErr =>
                let loadErrors :=
                  if found loadErrors loadErr then loadErrors
                  else (loadErrors ++ [loadErr])%list in
                let '(o, t') :=
                  loadModulesLoopRun e stopOnHCLError rest
                    moduleDefinitions loadErrors in
                (o, (t ++ t')%list)
            | None =>
                let '(o, t') :=
                  loadModulesLoopRun e stopOnHCLError rest
                    moduleDefinitions loadErrors in
                (o, (t ++ Stderr ("WARNING: Failed to load module: "
                                    ++ Error err ++ NL) :: t')%list)
            end
        | (Returned (Ok moduleDefinition), t) =>
            let '(o, t') :=
              loadModulesLoopRun e stopOnHCLError rest
                (moduleDefinitions ++ [moduleDefinition])%list loadErrors in
            (o, (t ++ t')%list)
        end
  end.

(** [loadModules] on the evaluated blocks that [expandBlocks] returned. *)
Definition loadModulesOfRun (e : Evaluator) (stopOnHCLError : bool)
    (expanded : list EvaluatedBlock) : R (list ModuleDefinition) :=
  match loadModulesLoopRun e stopOnHCLError expanded [] [] with
  | (Panicked, t) => (Panicked, t)
  | (Returned (moduleDefinitions, loadErrors), t) =>
      (Returned moduleDefinitions, (t ++ reportLoadErrors loadErrors)%list)
  end.

End Runs.

(* ===================================================================== *)
(** ** [path/filepath] on Unix                                            *)
(* ===================================================================== *)

(** The lexical path functions of the Go library for the separator '/'.
    [Clean] reads the path element by element and keeps the elements of
    the result on a stack ([out], last element first): an empty element
    and "." are dropped, ".." removes the element before it when there is
    one to remove and is kept at the front of a path that is not rooted,
    any other element is kept. *)

Module unixpath.

Definition Separator : ascii := "/"%char.

(** [out.w > dotdot]: the last element written can be taken back. *)
Definition canBacktrack (out : list string) : bool :=
  match out with
  | top :: _ => negb (String.eqb top "..")
  | [] => false
  end.

Fixpoint cleanLoop (rooted : bool) (elems : list string)
    (out : list string) : list string :=
  match elems with
  | [] => out
  | e :: rest =>
      if String.eqb e EmptyString then cleanLoop rooted rest out
      else if String.eqb e "." then cleanLoop rooted rest out
      else if String.eqb e ".." then
        if canBacktrack out then cleanLoop rooted rest (tl out)
        else if negb rooted then cleanLoop rooted rest (".." :: out)
        else cleanLoop rooted rest out
      else cleanLoop rooted rest (e :: out)
  end.

(** The buffer as a string: the leading separator of a rooted path, the
    elements with separators between them, and "." for an empty result. *)
Definition render (rooted : bool) (out : list string) : string :=
  let body := strings.Join (rev out) "/" in
  if rooted then String Separator body
  else if String.eqb body EmptyString then "." else body.

Definition Clean (path : string) : string :=
  match path with
  | EmptyString => "."
  | String c _ =>
      let rooted := Ascii.eqb c Separator in
      render rooted (cleanLoop rooted (strings.Split path Separator) [])
  end.

(** [filepath.Join(a, b)]: the elements from the first non-empty one on,
    joined by separators and cleaned; the empty string when both are
    empty. *)
Definition Join (a b : string) : string :=
  if negb (String.eqb a EmptyString) then Clean (a ++ "/" ++ b)
  else if negb (String.eqb b EmptyString) then Clean b
  else EmptyString.

Definition IsAbs (path : string) : bool := strings.HasPrefix path "/".

(** An element that [cleanLoop] keeps as it is. *)
Definition isName (e : string) : bool :=
  negb (String.eqb e EmptyString) && negb (String.eqb e ".")
  && negb (String.eqb e "..") && negb (strings.contains Separator e).

Definition allDotDot (l : list string) : bool :=
  forallb (fun e => String.eqb e "..") l.

(** The shape of the stack: names on top, and under them the ".."
    elements of a path that is not rooted. *)
Fixpoint stackOk (rooted : bool) (out : list string) : bool :=
  match out with
  | [] => true
  | e :: below =>
      if String.eqb e ".." then negb rooted && allDotDot below
      else isName e && stackOk rooted below
  end.

(** An element of a cleaned path: not empty, without a separator. *)
Definition plain (e : string) : Prop :=
  e <> EmptyString /\ strings.contains Separator e = false.

End unixpath.

(* ===================================================================== *)
(** ** What the loader is compared with                                   *)
(* ===================================================================== *)

Section Reference.

Context {C : Collaborators}.

Definition fileBlocksOf (file : File) : list hcl_Block :=
  fst (fst (LoadBlocksFromFile file)).

Definition fileIgnoresOf (file : File) : list Ignore :=
  snd (fst (LoadBlocksFromFile file)).

Definition fileErrorOf (file : File) : option error :=
  snd (LoadBlocksFromFile file).

(** The blocks of the files that parse, each under the module block [b]
    and in the context [ctx]. *)
Definition parsedBlocks (b : Block) (ctx : block_Context)
    (files : list File) : list Block :=
  flat_map (fun file =>
              match fileErrorOf file with
              | None => map (fun fileBlock => block_New fileBlock ctx (Some b) None)
                            (fileBlocksOf file)
              | Some _ => []
              end) files.

(** The ignores of the files that parse. *)
Definition parsedIgnores (files : list File) : list Ignore :=
  flat_map (fun file =>
              match fileErrorOf file with
              | None => fileIgnoresOf file
              | Some _ => []
              end) files.

(** The error of the first file that does not parse. *)
Fixpoint firstError (files : list File) : option error :=
  match files with
  | [] => None
  | file :: rest =>
      match fileErrorOf file with
      | Some err => Some err
      | None => firstError rest
      end
  end.

End Reference.

(** Is there a metadata entry for the key of the block? *)
Definition metadataMatch (e : Evaluator) (b : Block) : bool :=
  match moduleMetadata e with
  | Some metadata =>
      existsb (fun module => String.eqb (Key module) (getModuleKeyName e (Label b)))
              (metadata_Modules metadata)
  | None => false
  end.

(** The first metadata entry for the key of the block. *)
Definition metadataEntry (e : Evaluator) (b : Block) : option ModuleMetadata :=
  match moduleMetadata e with
  | Some metadata =>
      find (fun module => String.eqb (Key module) (getModuleKeyName e (Label b)))
           (metadata_Modules metadata)
  | None => None
  end.

(** The source starts with "./" or "../", with the separator of the
    platform. *)
Definition localSource {P : Platform} (source : string) : bool :=
  strings.HasPrefix source (String "." (String PathSeparator EmptyString))
  || strings.HasPrefix source
       (String "." (String "." (String PathSeparator EmptyString))).

(** The directory [loadModule] goes to, or the failure of the check of the
    source. *)
Definition resolution {P : Platform} (e : Evaluator) (b : Block) (source : string)
  : result string :=
  match metadataEntry e b with
  | Some module =>
      Ok (filepath_Clean (filepath_Join (projectRootPath e) (Dir module)))
  | None =>
      if localSource source then Ok (filepath_Join (modulePath e) source)
      else Err (LoadError (Build_moduleLoadError source
                             (errorString "missing source code")))
  end.

(** Every attribute called "source" is a string that is empty, or is not a
    string at all; this includes a block without such an attribute. *)
Definition noSource (b : Block) : bool :=
  forallb (fun attr =>
             negb (String.eqb (attr_Name attr) "source")
             || match attr_Value attr with
                | cty_String s => String.eqb s EmptyString
                | _ => true
                end)
          (Attributes b).

(** There is an attribute called "source", and every such attribute is the
    empty string. *)
Definition sourceIsEmptyString (b : Block) : bool :=
  existsb (fun attr => String.eqb (attr_Name attr) "source") (Attributes b)
  && forallb (fun attr =>
                negb (String.eqb (attr_Name attr) "source")
                || match attr_Value attr with
                   | cty_String s => String.eqb s EmptyString
                   | _ => false
                   end)
             (Attributes b).

(** The definitions of the blocks that load, in the order of the blocks. *)
Definition loaded {P : Platform} {C : Collaborators}
    (e : Evaluator) (stop : bool) (expanded : list Block) : list ModuleDefinition :=
  flat_map (fun b =>
              if String.eqb (Label b) EmptyString then []
              else match fst (loadModule e b stop) with
                   | Ok d => [d]
                   | Err _ => []
                   end) expanded.

(** The block fails to load with a [moduleLoadError] for [s]. *)
Definition failsWith {P : Platform} {C : Collaborators}
    (e : Evaluator) (stop : bool) (b : Block) (s : string) : Prop :=
  Label b <> EmptyString
  /\ exists cause,
       fst (loadModule e b stop) = Err (LoadError (Build_moduleLoadError s cause)).

(** A line of the final report starts with a blank; the warnings start
    with "WARNING". *)
Definition reportLine (ev : event) : bool :=
  match ev with
  | Stderr (String c _) => Ascii.eqb c " "
  | _ => false
  end.

Definition event_eq_dec (x y : event) : {x = y} + {x <> y}.
Proof. decide equality; (apply string_dec || apply Nat.eq_dec). Defined.

(** The index that [count] and [for_each] put behind a name, if any. *)
Definition indexText (index : option string) : string :=
  match index with
  | Some i => "[" ++ i ++ "]"
  | None => EmptyString
  end.

(** An index with content, on one line and without a closing bracket. *)
Definition indexOk (index : option string) : bool :=
  match index with
  | Some i => negb (String.eqb i EmptyString)
              && negb (strings.contains "]" i)
              && negb (strings.contains indexRegExp.LF i)
  | None => true
  end.

(** A segment of a module name: "module.", the name of the module block
    and its index. *)
Definition moduleRef (segment : string * option string) : string :=
  "module." ++ fst segment ++ indexText (snd segment).

(** The name has neither a colon nor an opening bracket, the index is one
    the expression removes and has no colon. *)
Definition segmentOk (segment : string * option string) : bool :=
  negb (strings.contains ":" (fst segment))
  && negb (strings.contains "[" (fst segment))
  && indexOk (snd segment)
  && negb (strings.contains ":" (indexText (snd segment))).

(** The module name of a module below the root: its segments from the
    root down, with colons between them. *)
Definition contextOf (segments : list (string * option string)) : string :=
  strings.Join (map moduleRef segments) ":".

(** The evaluator without its module metadata. *)
Definition withoutMetadata (e : Evaluator) : Evaluator :=
  {| moduleName := moduleName e; blocks := blocks e; moduleMetadata := None;
     projectRootPath := projectRootPath e; modulePath := modulePath e |}.

(** What was written to standard error, oldest first. *)
Definition stderrOf (t : list event) : list string :=
  flat_map (fun ev => match ev with Stderr text => [text] | _ => [] end) t.

(** The warnings for the files that do not parse. *)
Definition hclWarnings {C : Collaborators} (files : list File) : list string :=
  flat_map (fun file =>
              match fileErrorOf file with
              | Some err => ["WARNING: HCL error: " ++ Error err ++ NL]
              | None => []
              end) files.

(** The sources of the blocks that fail with a [moduleLoadError], in the
    order of the blocks. *)
Definition failingSources {P : Platform} {C : Collaborators}
    (e : Evaluator) (stop : bool) (expanded : list Block) : list string :=
  flat_map (fun b =>
              if String.eqb (Label b) EmptyString then []
              else match fst (loadModule e b stop) with
                   | Err (LoadError m) => [source m]
                   | _ => []
                   end) expanded.

(** The first line of the final report. *)
Definition reportHeader : event :=
  Stderr ("WARNING: Did you forget to 'terraform init'? "
            ++ "The following modules failed to load:" ++ NL).

(* ===================================================================== *)
(** ** A small project for the examples                                   *)
(* ===================================================================== *)

Module fixture.

Definition syntaxError : error :=
  errorString "broken.tf:1,1-2: Invalid block definition".

Definition notFound : error :=
  errorString "open: no such file or directory".

(** Three directories hold files; [broken.tf] does not parse, and its
    parser still hands back one ignore. *)
Definition directory (path : string) : result (list string) :=
  if String.eqb path "/proj/modules/shared"
  then Ok ["main.tf"; "broken.tf"; "outputs.tf"]
  else if String.eqb path "/proj/vendor/x" then Ok ["main.tf"]
  else if String.eqb path "/proj/modules/a/child" then Ok ["main.tf"]
  else if String.eqb path "child" then Ok ["main.tf"]
  else Err notFound.

Definition parse (file : string)
  : list string * list string * option error :=
  if String.eqb file "main.tf" then (["aws_s3_bucket.logs"], ["ignore:main"], None)
  else if String.eqb file "outputs.tf" then (["output.arn"], ["ignore:outputs"], None)
  else ([], ["ignore:broken"], Some syntaxError).

#[export] Instance host : Collaborators := {|
  File := string;
  hcl_Block := string;
  Ignore := string;
  block_Context := unit;
  LoadDirectory := fun path _ => directory path;
  LoadBlocksFromFile := parse;
  DefRange_Filename := fun _ => "main.tf";
  block_NewContext := tt;
  block_New := fun fileBlock _ _ _ =>
    {| Type_ := "resource"; Label := fileBlock; Attributes := []; Range := "main.tf:1" |};
  expandBlocks := fun _ blocks => blocks
|}.

Definition moduleBlock (label source : string) : Block :=
  {| Type_ := "module"; Label := label;
     Attributes := [ {| attr_Name := "source"; attr_Value := cty_String source |} ];
     Range := "main.tf:3,1-11" |}.

(** A root module without metadata, called with absolute paths. *)
Definition rootEvaluator (blocks : list Block) : Evaluator :=
  {| moduleName := "root"; blocks := blocks; moduleMetadata := None;
     projectRootPath := "/proj"; modulePath := "/proj/modules/a" |}.

(** The same with the metadata of [terraform init]. *)
Definition cachedEvaluator (blocks : list Block) : Evaluator :=
  {| moduleName := "root"; blocks := blocks;
     moduleMetadata := Some {| metadata_Modules := [ {| Key := "x"; Dir := "vendor/x" |} ] |};
     projectRootPath := "/proj"; modulePath := "/proj/modules/a" |}.

(** A root module called with the relative path ".". *)
Definition relativeEvaluator (blocks : list Block) : Evaluator :=
  {| moduleName := "root"; blocks := blocks; moduleMetadata := None;
     projectRootPath := "."; modulePath := "." |}.

(** A module two levels down. *)
Definition nestedEvaluator : Evaluator :=
  {| moduleName := "module.a:module.b[0]"; blocks := []; moduleMetadata := None;
     projectRootPath := "/proj"; modulePath := "/proj/modules/b" |}.

(** A string between double quotes, as a key of [for_each] is written
    in an index. *)
Definition quoted (s : string) : string :=
  String "034"%char (s ++ String "034"%char EmptyString).

(** A module block whose source is the null of type string, as for
    [source = true ? null : "./child"]. *)
Definition nullSourceBlock : EvaluatedBlock :=
  {| eb_Type := "module"; eb_Label := "n";
     eb_Attributes := [ {| ea_Name := "source"; ea_Value := nullString |} ];
     eb_Range := "main.tf:9,1-11" |}.

End fixture.

(* ===================================================================== *)
(** ** Facts about [strings]                                              *)
(* ===================================================================== *)

Lemma Split_pieces_free s sep :
  Forall (fun piece => strings.contains sep piece = false) (strings.Split s sep).
Proof.
  induction s as [|c r IH]; simpl.
  - repeat constructor.
  - destruct (Ascii.eqb c sep) eqn:E.
    + constructor; [reflexivity|exact IH].
    + destruct (strings.Split r sep) as [|piece pieces] eqn:Er.
      * repeat constructor. simpl. now rewrite E.
      * inversion IH; subst. constructor; [|assumption].
        simpl. now rewrite E.
Qed.

Lemma Split_free s sep :
  strings.contains sep s = false -> strings.Split s sep = [s].
Proof.
  induction s as [|c r IH]; simpl; [reflexivity|].
  intros H. apply orb_false_iff in H as [Hc Hr].
  rewrite Hc, (IH Hr). reflexivity.
Qed.

Lemma Split_append s sep t :
  strings.contains sep s = false ->
  strings.Split (s ++ String sep t) sep = s :: strings.Split t sep.
Proof.
  induction s as [|c r IH]; simpl.
  - intros _. now rewrite Ascii.eqb_refl.
  - intros H. apply orb_false_iff in H as [Hc Hr].
    rewrite Hc, (IH Hr). reflexivity.
Qed.

Lemma Split_Join (l : list string) (sep : ascii) :
  l <> [] ->
  Forall (fun e => strings.contains sep e = false) l ->
  strings.Split (strings.Join l (String sep EmptyString)) sep = l.
Proof.
  induction l as [|e rest IH]; [congruence|].
  intros _ Hall. inversion Hall as [|? ? He Hrest]; subst.
  destruct rest as [|e2 rest].
  - simpl. now apply Split_free.
  - change (strings.Join (e :: e2 :: rest) (String sep EmptyString))
      with (e ++ String sep (strings.Join (e2 :: rest) (String sep EmptyString))).
    rewrite Split_append by assumption.
    rewrite IH; [reflexivity|discriminate|assumption].
Qed.

Lemma HasPrefix_nil s : strings.HasPrefix s EmptyString = true.
Proof. destruct s; reflexivity. Qed.

Lemma HasPrefix_cons c r a p :
  strings.HasPrefix (String c r) (String a p)
  = Ascii.eqb c a && strings.HasPrefix r p.
Proof.
  unfold strings.HasPrefix. cbn [String.prefix].
  destruct (ascii_dec a c) as [->|Hn].
  - now rewrite Ascii.eqb_refl.
  - assert (H : Ascii.eqb c a = false) by (apply Ascii.eqb_neq; congruence).
    now rewrite H.
Qed.

(* ===================================================================== *)
(** ** Facts about [Clean] and [Join] on Unix                             *)
(* ===================================================================== *)

Module unixfacts.
Import unixpath.

Lemma allDotDot_stackOk l : allDotDot l = true -> stackOk false l = true.
Proof.
  induction l as [|e l IH]; simpl; [reflexivity|].
  intros H. apply andb_true_iff in H as [He Hl]. now rewrite He.
Qed.

Lemma stackOk_tl rooted e below :
  stackOk rooted (e :: below) = true -> stackOk rooted below = true.
Proof.
  simpl. destruct (String.eqb e "..").
  - intros H. apply andb_true_iff in H as [Hr Hd].
    destruct rooted; [discriminate|]. now apply allDotDot_stackOk.
  - intros H. now apply andb_true_iff in H as [_ H].
Qed.

Lemma stackOk_noBacktrack out :
  stackOk false out = true -> canBacktrack out = false ->
  allDotDot out = true.
Proof.
  destruct out as [|e below]; simpl; [reflexivity|].
  destruct (String.eqb e ".."); simpl; [tauto|discriminate].
Qed.

Lemma cleanLoop_ok rooted elems : forall out,
  Forall (fun e => strings.contains Separator e = false) elems ->
  stackOk rooted out = true ->
  stackOk rooted (cleanLoop rooted elems out) = true.
Proof.
  induction elems as [|e rest IH]; intros out Hfree Hok; simpl; [assumption|].
  inversion Hfree as [|? ? He Hrest]; subst.
  destruct (String.eqb e EmptyString) eqn:E0; [now apply IH|].
  destruct (String.eqb e ".") eqn:E1; [now apply IH|].
  destruct (String.eqb e "..") eqn:E2.
  - destruct (canBacktrack out) eqn:Eb.
    + apply IH; [assumption|].
      destruct out as [|top below]; [discriminate|].
      simpl. eapply stackOk_tl; eassumption.
    + destruct rooted; simpl; [now apply IH|].
      apply IH; [assumption|]. simpl.
      now apply stackOk_noBacktrack.
  - apply IH; [assumption|]. simpl. rewrite E2.
    unfold isName. now rewrite E0, E1, E2, He, Hok.
Qed.

Lemma cleanLoop_app rooted l1 l2 : forall out,
  cleanLoop rooted (l1 ++ l2)%list out
  = cleanLoop rooted l2 (cleanLoop rooted l1 out).
Proof.
  induction l1 as [|e l1 IH]; intros out; simpl; [reflexivity|].
  destruct (String.eqb e EmptyString); [apply IH|].
  destruct (String.eqb e "."); [apply IH|].
  destruct (String.eqb e "..").
  - destruct (canBacktrack out); [apply IH|].
    destruct (negb rooted); apply IH.
  - apply IH.
Qed.

Lemma allDotDot_noBacktrack l : allDotDot l = true -> canBacktrack l = false.
Proof.
  destruct l as [|e l]; simpl; [reflexivity|].
  intros H. apply andb_true_iff in H as [He _]. now rewrite He.
Qed.

(** Reading the elements of a stack again gives the stack. *)
Lemma cleanLoop_replay rooted out :
  stackOk rooted out = true -> cleanLoop rooted (rev out) [] = out.
Proof.
  induction out as [|e below IH]; [reflexivity|].
  intros Hok. simpl rev. rewrite cleanLoop_app.
  rewrite (IH (stackOk_tl _ _ _ Hok)).
  simpl in Hok |- *.
  destruct (String.eqb e "..") eqn:E2.
  - apply andb_true_iff in Hok as [Hr Hd].
    apply String.eqb_eq in E2; subst e. simpl.
    rewrite (allDotDot_noBacktrack _ Hd), Hr. reflexivity.
  - apply andb_true_iff in Hok as [Hn _]. unfold isName in Hn.
    apply andb_true_iff in Hn as [Hn _].
    apply andb_true_iff in Hn as [Hn _].
    apply andb_true_iff in Hn as [H0 H1].
    apply negb_true_iff in H0, H1. now rewrite H0, H1.
Qed.

Lemma stackOk_plain rooted out :
  stackOk rooted out = true -> Forall plain out.
Proof.
  induction out as [|e below IH]; [constructor|].
  intros Hok. constructor; [|exact (IH (stackOk_tl _ _ _ Hok))].
  simpl in Hok. destruct (String.eqb e "..") eqn:E2.
  - apply String.eqb_eq in E2; subst e. split; [discriminate|reflexivity].
  - apply andb_true_iff in Hok as [Hn _]. unfold isName in Hn.
    repeat (apply andb_true_iff in Hn as [Hn ?]).
    split.
    + apply negb_true_iff in Hn. now apply String.eqb_neq.
    + now apply negb_true_iff.
Qed.

Lemma Forall_plain_free l :
  Forall plain l -> Forall (fun e => strings.contains Separator e = false) l.
Proof. intros H; eapply Forall_impl; [|exact H]. now intros e [_ He]. Qed.

(** A joined path starts with the first byte of its first element. *)
Lemma Join_head l :
  l <> [] -> Forall plain l ->
  exists c t, strings.Join l "/" = String c t /\ Ascii.eqb c Separator = false.
Proof.
  destruct l as [|e rest]; [congruence|]. intros _ Hall.
  inversion Hall as [|? ? [Hne Hfree] _]; subst.
  destruct e as [|c e']; [congruence|].
  simpl in Hfree. apply orb_false_iff in Hfree as [Hc _].
  destruct rest as [|e2 rest].
  - exists c, e'. split; [reflexivity|assumption].
  - exists c, (e' ++ "/" ++ strings.Join (e2 :: rest) "/").
    split; [reflexivity|assumption].
Qed.

Lemma Split_Join_unix l :
  l <> [] -> Forall plain l ->
  strings.Split (strings.Join l "/") Separator = l.
Proof.
  intros Hne Hall.
  exact (Split_Join l Separator Hne (Forall_plain_free l Hall)).
Qed.

Lemma Forall_rev_plain out : Forall plain out -> Forall plain (rev out).
Proof. apply Forall_rev. Qed.

(** A rendered stack is a fixed point of [Clean]. *)
Lemma Clean_render rooted out :
  stackOk rooted out = true -> Clean (render rooted out) = render rooted out.
Proof.
  intros Hok.
  pose proof (Forall_rev_plain _ (stackOk_plain _ _ Hok)) as Hplain.
  destruct rooted.
  - unfold render at 1. unfold Clean.
    rewrite Ascii.eqb_refl.
    change (strings.Split (String Separator (strings.Join (rev out) "/")) Separator)
      with (EmptyString :: strings.Split (strings.Join (rev out) "/") Separator).
    change (cleanLoop true (EmptyString :: ?l) []) with (cleanLoop true l []).
    destruct out as [|e below].
    + reflexivity.
    + rewrite Split_Join_unix.
      * now rewrite cleanLoop_replay.
      * simpl. intros H. now apply app_eq_nil in H as [_ H].
      * assumption.
  - unfold render at 1.
    destruct (String.eqb (strings.Join (rev out) "/") EmptyString) eqn:Eb.
    + apply String.eqb_eq in Eb. unfold render. rewrite Eb. reflexivity.
    + apply String.eqb_neq in Eb.
      assert (Hne : rev out <> []).
      { intros H. apply Eb. now rewrite H. }
      destruct (Join_head _ Hne Hplain) as (c & t & Hct & Hc).
      unfold Clean. rewrite Hct, Hc. rewrite <- Hct.
      rewrite Split_Join_unix by assumption.
      now rewrite cleanLoop_replay.
Qed.

(** [Clean] renders a well-shaped stack, rooted as the path is. *)
Lemma Clean_shape path :
  exists out, stackOk (IsAbs path) out = true
              /\ Clean path = render (IsAbs path) out.
Proof.
  destruct path as [|c r].
  - exists []. split; reflexivity.
  - unfold Clean.
    assert (Hr : IsAbs (String c r) = Ascii.eqb c Separator).
    { unfold IsAbs. rewrite HasPrefix_cons, HasPrefix_nil.
      apply andb_true_r. }
    rewrite Hr.
    exists (cleanLoop (Ascii.eqb c Separator)
              (strings.Split (String c r) Separator) []).
    split; [|reflexivity].
    apply cleanLoop_ok; [apply Split_pieces_free|reflexivity].
Qed.

Lemma render_not_empty rooted out :
  render rooted out <> EmptyString.
Proof.
  unfold render. destruct rooted; [discriminate|].
  destruct (String.eqb _ EmptyString) eqn:E; [discriminate|].
  now apply String.eqb_neq.
Qed.

Lemma IsAbs_render rooted out :
  stackOk rooted out = true -> IsAbs (render rooted out) = rooted.
Proof.
  intros Hok. destruct rooted.
  - unfold render, IsAbs. rewrite HasPrefix_cons, HasPrefix_nil.
    reflexivity.
  - unfold render.
    destruct (String.eqb (strings.Join (rev out) "/") EmptyString) eqn:Eb;
      [reflexivity|].
    apply String.eqb_neq in Eb.
    assert (Hne : rev out <> []).
    { intros H. apply Eb. now rewrite H. }
    destruct (Join_head _ Hne (Forall_rev_plain _ (stackOk_plain _ _ Hok)))
      as (c & t & Hct & Hc).
    rewrite Hct. unfold IsAbs. rewrite HasPrefix_cons, HasPrefix_nil.
    now rewrite andb_true_r.
Qed.

Lemma unix_Clean_not_empty path : Clean path <> EmptyString.
Proof.
  destruct (Clean_shape path) as (out & _ & ->). apply render_not_empty.
Qed.

Lemma unix_Clean_idempotent path : Clean (Clean path) = Clean path.
Proof.
  destruct (Clean_shape path) as (out & Hok & ->). now apply Clean_render.
Qed.

Lemma unix_Clean_IsAbs path : IsAbs (Clean path) = IsAbs path.
Proof.
  destruct (Clean_shape path) as (out & Hok & ->). now apply IsAbs_render.
Qed.

Lemma unix_Join_cleaned a b : b <> EmptyString -> Clean (Join a b) = Join a b.
Proof.
  intros Hb. unfold Join.
  destruct (String.eqb a EmptyString); simpl.
  - apply String.eqb_neq in Hb. rewrite Hb. simpl. apply unix_Clean_idempotent.
  - apply unix_Clean_idempotent.
Qed.

Lemma unix_Join_IsAbs a b : IsAbs a = true -> IsAbs (Join a b) = true.
Proof.
  intros Ha. unfold Join. destruct a as [|c r]; [discriminate|]. simpl negb.
  cbv iota. rewrite unix_Clean_IsAbs.
  unfold IsAbs in *. change (String c r ++ "/" ++ b) with (String c (r ++ "/" ++ b)).
  rewrite HasPrefix_cons, HasPrefix_nil in *. assumption.
Qed.

End unixfacts.

(** The Unix platform. *)
#[export] Instance unix : Platform := {|
  PathSeparator := unixpath.Separator;
  filepath_Clean := unixpath.Clean;
  filepath_Join := unixpath.Join;
  filepath_IsAbs := unixpath.IsAbs;
  Clean_not_empty := unixfacts.unix_Clean_not_empty;
  Clean_idempotent := unixfacts.unix_Clean_idempotent;
  Join_cleaned := unixfacts.unix_Join_cleaned;
  Clean_IsAbs := unixfacts.unix_Clean_IsAbs;
  Join_IsAbs := unixfacts.unix_Join_IsAbs
|}.

(** The table of the tests of [Clean] in the Go library, for paths
    without a drive. *)
Example unix_Clean_table :
  map unixpath.Clean
    ["abc"; "abc/def"; "a/b/c"; "."; ".."; "../.."; "../../abc"; "/abc"; "/";
     EmptyString; "abc/"; "abc/def/"; "a/b/c/"; "./"; "../"; "../../"; "/abc/";
     "abc//def//ghi"; "//abc"; "///abc"; "//abc//"; "abc//";
     "abc/./def"; "/./abc/def"; "abc/.";
     "abc/def/ghi/../jkl"; "abc/def/../ghi/../jkl"; "abc/def/..";
     "abc/def/../.."; "/abc/def/../.."; "abc/def/../../..";
     "/abc/def/../../.."; "abc/def/../../../ghi/jkl/../../../mno";
     "/../abc"; "abc/./../def"; "abc//./../def"; "abc/../../././../def"]
  = ["abc"; "abc/def"; "a/b/c"; "."; ".."; "../.."; "../../abc"; "/abc"; "/";
     "."; "abc"; "abc/def"; "a/b/c"; "."; ".."; "../.."; "/abc";
     "abc/def/ghi"; "/abc"; "/abc"; "/abc"; "abc";
     "abc/def"; "/abc/def"; "abc";
     "abc/def/jkl"; "abc/jkl"; "abc";
     "."; "/"; "..";
     "/"; "../../mno";
     "/abc"; "def"; "def"; "../../def"].
Proof. vm_compute. reflexivity. Qed.

Example unix_Join_table :
  unixpath.Join "/proj/modules/a" "../shared" = "/proj/modules/shared"
  /\ unixpath.Join "/proj/modules/a" "./child" = "/proj/modules/a/child"
  /\ unixpath.Join "." "./child" = "child"
  /\ unixpath.Join "a" EmptyString = "a"
  /\ unixpath.Join EmptyString "a" = "a"
  /\ unixpath.Join EmptyString EmptyString = EmptyString.
Proof. repeat split. Qed.

(* ===================================================================== *)
(** ** Facts about the index expression                                   *)
(* ===================================================================== *)

Module indexfacts.
Import indexRegExp.

Lemma ReplaceAllString_cons c r :
  ReplaceAllString (String c r)
  = match matchAt (String c r) with
    | Some rest => ReplaceAllString rest
    | None => String c (ReplaceAllString r)
    end.
Proof.
  rewrite ReplaceAllString_equation_2.
  unfold ReplaceAllString_unfold_clause_2.
  generalize (inspect (matchAt (String c r))).
  intros [o Ho]. rewrite Ho. destruct o; reflexivity.
Qed.

Lemma matchAt_inv s rest :
  matchAt s = Some rest ->
  exists c r, s = String "[" (String c r) /\ Ascii.eqb c LF = false
              /\ scanClose r = Some rest.
Proof.
  destruct s as [|a [|c r]]; simpl; try discriminate.
  destruct (Ascii.eqb a "[") eqn:Ea; [|discriminate].
  destruct (Ascii.eqb c LF) eqn:Ec; [discriminate|]. simpl.
  apply Ascii.eqb_eq in Ea; subst a. intros H. now exists c, r.
Qed.

(** No closing bracket on the line: no group starts in front of it. *)
Lemma matchAt_no_close c r :
  scanClose r = None -> matchAt (String c r) = None.
Proof.
  intros Hr. destruct (matchAt (String c r)) as [rest|] eqn:Em; [|reflexivity].
  apply matchAt_inv in Em as (c2 & r2 & [= -> ->] & Hc2 & Hs).
  simpl in Hr. rewrite Hc2, Hs in Hr.
  destruct (Ascii.eqb c2 "]"); discriminate.
Qed.

(** Dropping groups brings no closing bracket onto the first line. *)
Lemma scanClose_ReplaceAllString t :
  scanClose t = None -> scanClose (ReplaceAllString t) = None.
Proof.
  induction t as [|c r IH]; [reflexivity|].
  intros Ht. rewrite ReplaceAllString_cons.
  simpl in Ht.
  destruct (Ascii.eqb c "]") eqn:Eb; [discriminate|].
  destruct (Ascii.eqb c LF) eqn:El.
  - assert (Hm : matchAt (String c r) = None).
    { destruct r as [|c2 r2]; [reflexivity|]. simpl.
      apply Ascii.eqb_eq in El; subst c. reflexivity. }
    rewrite Hm. simpl. now rewrite Eb, El.
  - rewrite (matchAt_no_close c _ Ht). simpl. rewrite Eb, El. now apply IH.
Qed.

(** A byte that starts no group starts none after the replacement
    behind it. *)
Lemma matchAt_kept c r :
  matchAt (String c r) = None ->
  matchAt (String c (ReplaceAllString r)) = None.
Proof.
  intros e.
  destruct r as [|c2 r2]; [reflexivity|].
  simpl in e.
  destruct (Ascii.eqb c "[") eqn:Ea.
  - destruct (Ascii.eqb c2 LF) eqn:El; simpl in e.
    + assert (Hm : matchAt (String c2 r2) = None).
      { destruct r2; [reflexivity|]. simpl.
        apply Ascii.eqb_eq in El; subst c2. reflexivity. }
      rewrite ReplaceAllString_cons, Hm. simpl. now rewrite El, andb_false_r.
    + rewrite ReplaceAllString_cons, (matchAt_no_close c2 _ e).
      simpl. rewrite Ea, El. simpl. now apply scanClose_ReplaceAllString.
  - destruct (ReplaceAllString (String c2 r2)) as [|? ?]; simpl;
      [reflexivity|now rewrite Ea].
Qed.

(** After the replacement no group is left. *)
Lemma hasMatch_ReplaceAllString s : hasMatch (ReplaceAllString s) = false.
Proof.
  funelim (ReplaceAllString s); [reflexivity|assumption|].
  change (hasMatch (String c (ReplaceAllString r)))
    with (match matchAt (String c (ReplaceAllString r)) with
          | Some _ => true
          | None => hasMatch (ReplaceAllString r)
          end).
  now rewrite (matchAt_kept c r e).
Qed.

Lemma bracketed_spec s :
  bracketed s = true <->
  exists pre mid post, s = pre ++ String "[" (mid ++ String "]" post).
Proof.
  split.
  - induction s as [|c r IH]; simpl; [discriminate|].
    intros H. apply orb_true_iff in H as [H|H].
    + apply andb_true_iff in H as [Hc Hr].
      apply Ascii.eqb_eq in Hc; subst c.
      assert (Hsplit : exists mid post, r = mid ++ String "]" post).
      { clear IH. induction r as [|d r IHr]; simpl in Hr; [discriminate|].
        apply orb_true_iff in Hr as [Hd|Hr].
        - apply Ascii.eqb_eq in Hd; subst d. now exists EmptyString, r.
        - destruct (IHr Hr) as (mid & post & ->).
          now exists (String d mid), post. }
      destruct Hsplit as (mid & post & ->).
      now exists EmptyString, mid, post.
    + destruct (IH H) as (pre & mid & post & ->).
      now exists (String c pre), mid, post.
  - intros (pre & mid & post & ->).
    induction pre as [|c pre IH]; simpl.
    + assert (Hr : strings.contains "]" (mid ++ String "]" post) = true).
      { induction mid as [|d mid IHm]; simpl; [reflexivity|].
        rewrite IHm. apply orb_true_r. }
      now rewrite Hr.
    + rewrite IH. apply orb_true_r.
Qed.

Lemma scanClose_contains r rest :
  scanClose r = Some rest -> strings.contains "]" r = true.
Proof.
  induction r as [|c r IH]; simpl; [discriminate|].
  destruct (Ascii.eqb c "]"); [reflexivity|].
  destruct (Ascii.eqb c LF); [discriminate|]. exact IH.
Qed.

Lemma matchAt_bracketed s rest : matchAt s = Some rest -> bracketed s = true.
Proof.
  intros H. apply matchAt_inv in H as (c & r & -> & _ & Hs).
  apply scanClose_contains in Hs.
  simpl. rewrite Hs. now rewrite !orb_true_r.
Qed.

(** Without a bracketed substring nothing is replaced. *)
Lemma ReplaceAllString_plain s :
  bracketed s = false -> ReplaceAllString s = s.
Proof.
  induction s as [|c r IH]; [reflexivity|].
  intros Hb. rewrite ReplaceAllString_cons.
  destruct (matchAt (String c r)) as [rest|] eqn:Em.
  - apply matchAt_bracketed in Em. congruence.
  - simpl in Hb. apply orb_false_iff in Hb as [_ Hb]. now rewrite IH.
Qed.

Lemma scanClose_found mid post :
  strings.contains LF mid = false ->
  scanClose (mid ++ String "]" post) <> None.
Proof.
  induction mid as [|d mid IH]; simpl; [discriminate|].
  intros H. apply orb_false_iff in H as [Hd Hm].
  destruct (Ascii.eqb d "]"); [discriminate|].
  rewrite Hd. now apply IH.
Qed.

Lemma indexGroupIn_hasMatch s : indexGroupIn s -> hasMatch s = true.
Proof.
  intros (pre & c & mid & post & Hlf & ->).
  simpl in Hlf. apply orb_false_iff in Hlf as [Hc Hmid].
  induction pre as [|a pre IH].
  - simpl. rewrite Hc. simpl.
    destruct (scanClose (mid ++ String "]" post)) eqn:Es; [reflexivity|].
    now apply scanClose_found in Es.
  - change (hasMatch (String a pre ++ ?t))
      with (match matchAt (String a (pre ++ t)) with
            | Some _ => true
            | None => hasMatch (pre ++ t)
            end).
    rewrite IH. now destruct (matchAt _).
Qed.

Lemma hasMatch_indexGroupIn s : hasMatch s = true -> indexGroupIn s.
Proof.
  induction s as [|a s IH]; [discriminate|].
  change (hasMatch (String a s))
    with (match matchAt (String a s) with
          | Some _ => true
          | None => hasMatch s
          end).
  destruct (matchAt (String a s)) as [rest|] eqn:Em.
  - intros _. apply matchAt_inv in Em as (c & r & -> & Hc & Hs).
    assert (Hr : exists mid, strings.contains LF mid = false
                             /\ r = mid ++ String "]" rest).
    { clear Hc IH. revert Hs. induction r as [|d r IHr]; simpl; [discriminate|].
      destruct (Ascii.eqb d "]") eqn:Ed.
      - intros [= ->]. apply Ascii.eqb_eq in Ed; subst d.
        now exists EmptyString.
      - destruct (Ascii.eqb d LF) eqn:El; [discriminate|].
        intros H. destruct (IHr H) as (mid & Hmid & ->).
        exists (String d mid). split; [|reflexivity].
        simpl. now rewrite El, Hmid. }
    destruct Hr as (mid & Hmid & ->).
    exists EmptyString, c, mid, rest. split; [|reflexivity].
    simpl. now rewrite Hc, Hmid.
  - intros H. destruct (IH H) as (pre & c & mid & post & Hlf & ->).
    now exists (String a pre), c, mid, post.
Qed.

Lemma ReplaceAllString_no_group s : ~ indexGroupIn (ReplaceAllString s).
Proof.
  intros H. apply indexGroupIn_hasMatch in H.
  now rewrite hasMatch_ReplaceAllString in H.
Qed.

End indexfacts.

Example ReplaceAllString_table :
  map indexRegExp.ReplaceAllString
    ["x[0][1]"; "x[0].y[k]"; "x[]"; "x["; "x]"; "a[[]]"; "[]]"]
  = ["x"; "x.y"; "x[]"; "x["; "x]"; "a]"; EmptyString].
Proof. reflexivity. Qed.

(** The loop of [getModuleKeyName] joins the trimmed segments with
    dots. *)
Lemma keyNameLoop_Join modules : forall keyName,
  keyNameLoop modules keyName
  = keyName ++ strings.Join
                 (map (fun m => strings.TrimPrefix m "module.") modules) ".".
Proof.
  assert (Hnil : forall s : string, s ++ EmptyString = s)
    by (induction s; simpl; congruence).
  assert (Hassoc : forall a b c : string, (a ++ b) ++ c = a ++ (b ++ c))
    by (induction a; simpl; congruence).
  induction modules as [|m rest IH]; intros keyName.
  - simpl. now rewrite Hnil.
  - destruct rest as [|m2 rest].
    + reflexivity.
    + change (keyNameLoop (m :: m2 :: rest) keyName)
        with (keyNameLoop (m2 :: rest)
                ((keyName ++ strings.TrimPrefix m "module.") ++ ".")).
      rewrite IH.
      change (strings.Join (map (fun m => strings.TrimPrefix m "module.")
                                (m :: m2 :: rest)) ".")
        with (strings.TrimPrefix m "module." ++ "."
              ++ strings.Join (map (fun m => strings.TrimPrefix m "module.")
                                   (m2 :: rest)) ".").
      now rewrite !Hassoc.
Qed.

(* ===================================================================== *)
(** ** Facts about computations with events                               *)
(* ===================================================================== *)

Lemma bind_ret {A B} (a : A) (k : A -> M B) : bind (ret a) k = k a.
Proof. unfold bind, ret. now destruct (k a). Qed.

Lemma fst_bind {A B} (m : M A) (k : A -> M B) :
  fst (bind m k) = fst (k (fst m)).
Proof. unfold bind. destruct m as [a t1]. simpl. now destruct (k a). Qed.

Lemma snd_bind {A B} (m : M A) (k : A -> M B) :
  snd (bind m k) = (snd m ++ snd (k (fst m)))%list.
Proof. unfold bind. destruct m as [a t1]. simpl. now destruct (k a). Qed.

Lemma bind_assoc {A B D} (m : M A) (k : A -> M B) (h : B -> M D) :
  bind (bind m k) h = bind m (fun a => bind (k a) h).
Proof.
  unfold bind. destruct m as [a t1]. destruct (k a) as [b t2].
  destruct (h b) as [d t3]. now rewrite app_assoc.
Qed.

Lemma bind_emit {B} (ev : event) (k : unit -> M B) :
  bind (emit ev) k = (fst (k tt), ev :: snd (k tt)).
Proof. unfold bind, emit. now destruct (k tt). Qed.

Lemma bind_ext {A B} (m : M A) (k k' : A -> M B) :
  (forall a, k a = k' a) -> bind m k = bind m k'.
Proof. intros H. unfold bind. destruct m as [a t]. now rewrite H. Qed.

Lemma bind_emit_ext {B} (ev : event) (k k' : unit -> M B) :
  k tt = k' tt -> bind (emit ev) k = bind (emit ev) k'.
Proof. intros H. now rewrite !bind_emit, H. Qed.

(* ===================================================================== *)
(** ** Facts about [getModuleBlocks]                                      *)
(* ===================================================================== *)

Section DirectoryFacts.

Context {C : Collaborators}.

(** With [stopOnHCLError] unset the loop adds what the files that parse
    hold and reports no error. *)
Lemma getModuleBlocksLoop_tolerant b ctx files : forall blocks ignores,
  fst (getModuleBlocksLoop b ctx false files blocks ignores)
  = ((blocks ++ parsedBlocks b ctx files)%list,
     (ignores ++ parsedIgnores files)%list, None).
Proof.
  induction files as [|file rest IH]; intros blocks ignores.
  - simpl. now rewrite !app_nil_r.
  - simpl. unfold fileErrorOf, fileBlocksOf, fileIgnoresOf.
    destruct (LoadBlocksFromFile file) as [[fileBlocks fileIgnores] [err|]];
      simpl.
    + rewrite fst_bind. apply IH.
    + rewrite fst_bind, IH. now rewrite !app_assoc.
Qed.

(** With [stopOnHCLError] set the first error ends the loop with empty
    results. *)
Lemma getModuleBlocksLoop_strict b ctx files : forall blocks ignores,
  fst (getModuleBlocksLoop b ctx true files blocks ignores)
  = match firstError files with
    | Some err => ([], [], Some err)
    | None => ((blocks ++ parsedBlocks b ctx files)%list,
               (ignores ++ parsedIgnores files)%list, None)
    end.
Proof.
  induction files as [|file rest IH]; intros blocks ignores.
  - simpl. now rewrite !app_nil_r.
  - simpl. unfold fileErrorOf, fileBlocksOf, fileIgnoresOf.
    destruct (LoadBlocksFromFile file) as [[fileBlocks fileIgnores] [err|]];
      simpl; [reflexivity|].
    rewrite fst_bind, IH. unfold fileErrorOf.
    destruct (firstError rest); [reflexivity|]. now rewrite !app_assoc.
Qed.

Lemma firstError_Some files :
  (exists file, In file files /\ fileErrorOf file <> None) ->
  exists err, firstError files = Some err.
Proof.
  intros (file & Hin & Herr).
  induction files as [|f rest IH]; [contradiction|].
  simpl. destruct (fileErrorOf f) as [err|] eqn:Ef; [now exists err|].
  destruct Hin as [->|Hin]; [congruence|]. now apply IH.
Qed.

Lemma firstError_None files :
  (forall file, In file files -> fileErrorOf file = None) ->
  firstError files = None.
Proof.
  induction files as [|f rest IH]; [reflexivity|].
  intros H. simpl. rewrite (H f (or_introl eq_refl)).
  apply IH. intros file Hin. apply H. now right.
Qed.

Lemma In_parsedIgnores files ig :
  In ig (parsedIgnores files) <->
  exists file, In file files /\ fileErrorOf file = None
               /\ In ig (fileIgnoresOf file).
Proof.
  unfold parsedIgnores. rewrite in_flat_map. split.
  - intros (file & Hin & Hig). exists file.
    destruct (fileErrorOf file); [contradiction|]. auto.
  - intros (file & Hin & Herr & Hig). exists file. now rewrite Herr.
Qed.

Lemma In_parsedBlocks b ctx files blk :
  In blk (parsedBlocks b ctx files) <->
  exists file fileBlock,
    In file files /\ fileErrorOf file = None
    /\ In fileBlock (fileBlocksOf file)
    /\ blk = block_New fileBlock ctx (Some b) None.
Proof.
  unfold parsedBlocks. rewrite in_flat_map. split.
  - intros (file & Hin & Hb).
    destruct (fileErrorOf file) eqn:Ef; [contradiction|].
    apply in_map_iff in Hb as (fileBlock & <- & Hfb).
    now exists file, fileBlock.
  - intros (file & fileBlock & Hin & Herr & Hfb & ->).
    exists file. rewrite Herr. split; [assumption|].
    apply in_map_iff. now exists fileBlock.
Qed.

End DirectoryFacts.

(* ===================================================================== *)
(** ** Facts about [loadModule]                                           *)
(* ===================================================================== *)

Section ResolverFacts.

Context {P : Platform} {C : Collaborators}.

Lemma readSource_noSource b :
  noSource b = true -> readSource (Attributes b) = EmptyString.
Proof.
  unfold noSource, readSource. induction (Attributes b) as [|attr rest IH];
    [reflexivity|].
  simpl. intros H. apply andb_true_iff in H as [Ha Hrest].
  destruct (String.eqb (attr_Name attr) "source"); simpl in Ha; [|now apply IH].
  destruct (attr_Value attr) as [s| | | | |]; simpl; try now apply IH.
  apply String.eqb_eq in Ha; subst s. now apply IH.
Qed.

Lemma scanMetadata_find e modules name :
  scanMetadata e modules name
  = match find (fun module => String.eqb (Key module) name) modules with
    | Some module =>
        filepath_Clean (filepath_Join (projectRootPath e) (Dir module))
    | None => EmptyString
    end.
Proof.
  induction modules as [|module rest IH]; [reflexivity|].
  simpl. now destruct (String.eqb (Key module) name).
Qed.

Lemma metadataEntry_match e b :
  metadataMatch e b = true <-> exists module, metadataEntry e b = Some module.
Proof.
  unfold metadataMatch, metadataEntry.
  destruct (moduleMetadata e) as [metadata|].
  - induction (metadata_Modules metadata) as [|module rest IH]; simpl.
    + split; [discriminate|now intros [? ?]].
    + destruct (String.eqb (Key module) _); simpl; [|exact IH].
      split; [now exists module|reflexivity].
  - split; [discriminate|now intros [? ?]].
Qed.

Lemma metadataEntry_In e b module :
  metadataEntry e b = Some module ->
  exists metadata, moduleMetadata e = Some metadata
                   /\ In module (metadata_Modules metadata)
                   /\ Key module = getModuleKeyName e (Label b).
Proof.
  unfold metadataEntry. destruct (moduleMetadata e) as [metadata|];
    [|discriminate].
  intros H. apply find_some in H as [Hin Hkey].
  apply String.eqb_eq in Hkey. now exists metadata.
Qed.

(** [loadModule] for a block with a label and a source. *)
Lemma loadModule_resolution e b stop :
  Label b <> EmptyString ->
  readSource (Attributes b) <> EmptyString ->
  loadModule e b stop
  = (emit TimerStart ;;; emit TimerStop ;;;
     match resolution e b (readSource (Attributes b)) with
     | Ok dir => loadResolved e b (readSource (Attributes b)) dir stop
     | Err err => ret (Err err)
     end).
Proof.
  intros Hlabel Hsource. unfold loadModule, resolution, metadataEntry.
  apply String.eqb_neq in Hlabel, Hsource. rewrite Hlabel, Hsource.
  do 2 (apply bind_emit_ext).
  destruct (moduleMetadata e) as [metadata|].
  - rewrite scanMetadata_find.
    destruct (find _ (metadata_Modules metadata)) as [module|].
    + pose proof (Clean_not_empty
                    (filepath_Join (projectRootPath e) (Dir module))) as Hne.
      apply String.eqb_neq in Hne. now rewrite Hne.
    + simpl. unfold localSource.
      now destruct (strings.HasPrefix _ _), (strings.HasPrefix _ _).
  - simpl. unfold localSource.
    now destruct (strings.HasPrefix _ _), (strings.HasPrefix _ _).
Qed.

Lemma loadResolved_fst e b source dir stop :
  fst (loadResolved e b source dir stop)
  = match fst (getModuleBlocks b dir stop) with
    | (_, _, Some err) => Err (LoadError (Build_moduleLoadError source err))
    | (blocks, ignores, None) =>
        Ok {| Name := Label b; Path := dir; Definition_ := b;
              Modules := [NewHCLModule (projectRootPath e) dir blocks ignores] |}
    end.
Proof.
  unfold loadResolved. rewrite fst_bind.
  destruct (fst (getModuleBlocks b dir stop)) as [[blocks ignores] [err|]];
    [reflexivity|].
  now rewrite !bind_emit.
Qed.

Lemma getModuleBlocks_enumerated b dir stop blocks ignores :
  fst (getModuleBlocks b dir stop) = (blocks, ignores, None) ->
  exists files, LoadDirectory dir stop = Ok files.
Proof.
  unfold getModuleBlocks.
  destruct (LoadDirectory dir stop) as [files|err]; [now exists files|].
  discriminate.
Qed.

(** A block without a label gets the error of line 104 and no events. *)
Lemma loadModule_no_label e b stop :
  Label b = EmptyString ->
  loadModule e b stop
  = ret (Err (errorString ("module without label at " ++ Range b))).
Proof. intros H. unfold loadModule. now rewrite H. Qed.

(** A block without a source gets the error of line 124. *)
Lemma loadModule_no_source e b stop :
  Label b <> EmptyString ->
  readSource (Attributes b) = EmptyString ->
  loadModule e b stop
  = (Err (errorString ("could not read module source attribute at " ++ Range b)),
     [TimerStart; TimerStop]).
Proof.
  intros Hlabel Hsource. unfold loadModule.
  apply String.eqb_neq in Hlabel. rewrite Hlabel, Hsource.
  now rewrite !bind_emit.
Qed.

(** What a successful [loadModule] returned. *)
Lemma loadModule_Ok e b stop d :
  fst (loadModule e b stop) = Ok d ->
  Label b <> EmptyString
  /\ readSource (Attributes b) <> EmptyString
  /\ exists blocks ignores,
       resolution e b (readSource (Attributes b)) = Ok (Path d)
       /\ fst (getModuleBlocks b (Path d) stop) = (blocks, ignores, None)
       /\ d = {| Name := Label b; Path := Path d; Definition_ := b;
                 Modules := [NewHCLModule (projectRootPath e) (Path d)
                                          blocks ignores] |}.
Proof.
  intros Hok.
  destruct (String.eqb (Label b) EmptyString) eqn:El.
  { apply String.eqb_eq in El. rewrite (loadModule_no_label e b stop El) in Hok.
    discriminate. }
  apply String.eqb_neq in El.
  destruct (String.eqb (readSource (Attributes b)) EmptyString) eqn:Es.
  { apply String.eqb_eq in Es. rewrite (loadModule_no_source e b stop El Es) in Hok.
    discriminate. }
  apply String.eqb_neq in Es.
  rewrite (loadModule_resolution e b stop El Es) in Hok.
  rewrite !bind_emit in Hok. simpl in Hok.
  do 2 (split; [assumption|]).
  destruct (resolution e b (readSource (Attributes b))) as [dir|err];
    [|discriminate].
  rewrite loadResolved_fst in Hok.
  destruct (fst (getModuleBlocks b dir stop)) as [[blocks ignores] [err|]] eqn:Eg;
    [discriminate|].
  injection Hok as <-. simpl. now exists blocks, ignores.
Qed.

End ResolverFacts.

(* ===================================================================== *)
(** ** Facts about [loadModules]                                          *)
(* ===================================================================== *)

Section ModulesFacts.

Context {P : Platform} {C : Collaborators}.

Variable e : Evaluator.
Variable stop : bool.

Lemma loadModulesLoop_step b rest defs errs :
  fst (loadModulesLoop e stop (b :: rest) defs errs)
  = if String.eqb (Label b) EmptyString
    then fst (loadModulesLoop e stop rest defs errs)
    else match fst (loadModule e b stop) with
         | Ok d => fst (loadModulesLoop e stop rest (defs ++ [d])%list errs)
         | Err err =>
             match errors_As err with
             | Some loadErr =>
                 fst (loadModulesLoop e stop rest defs
                        (if found errs loadErr then errs
                         else (errs ++ [loadErr])%list))
             | None => fst (loadModulesLoop e stop rest defs errs)
             end
         end.
Proof.
  simpl. destruct (String.eqb (Label b) EmptyString); [reflexivity|].
  rewrite fst_bind.
  destruct (fst (loadModule e b stop)) as [d|err]; [reflexivity|].
  destruct (errors_As err); [reflexivity|]. now rewrite bind_emit.
Qed.

Lemma loadModulesLoop_defs expanded : forall defs errs,
  fst (fst (loadModulesLoop e stop expanded defs errs))
  = (defs ++ loaded e stop expanded)%list.
Proof.
  induction expanded as [|b rest IH]; intros defs errs.
  - simpl. now rewrite app_nil_r.
  - rewrite loadModulesLoop_step. simpl.
    destruct (String.eqb (Label b) EmptyString); [apply IH|].
    destruct (fst (loadModule e b stop)) as [d|err].
    + rewrite IH. now rewrite <- app_assoc.
    + destruct (errors_As err); simpl; apply IH.
Qed.

Lemma found_In errs loadErr :
  found errs loadErr = true <-> In (source loadErr) (map source errs).
Proof.
  unfold found. rewrite existsb_exists, in_map_iff. split.
  - intros (fm & Hin & Heq). apply String.eqb_eq in Heq. now exists fm.
  - intros (fm & Heq & Hin). exists fm. split; [assumption|].
    now apply String.eqb_eq.
Qed.

(** The sources collected by the loop: those passed in and those of the
    blocks that fail, each once. *)
Lemma loadModulesLoop_sources expanded : forall defs errs s,
  In s (map source (snd (fst (loadModulesLoop e stop expanded defs errs))))
  <-> In s (map source errs) \/ exists b, In b expanded /\ failsWith e stop b s.
Proof.
  induction expanded as [|b rest IH]; intros defs errs s.
  - simpl. split; [now left|]. intros [H|(b & [] & _)]. exact H.
  - rewrite loadModulesLoop_step.
    destruct (String.eqb (Label b) EmptyString) eqn:El.
    { rewrite IH. apply String.eqb_eq in El. split.
      - intros [H|(b' & Hin & Hf)]; [now left|].
        right. exists b'. split; [now right|assumption].
      - intros [H|(b' & [<-|Hin] & Hf)]; [now left| |].
        + destruct Hf as [Hne _]. contradiction.
        + right. now exists b'. }
    apply String.eqb_neq in El.
    assert (Hrest : forall errs',
      (In s (map source errs') \/ (exists b', In b' rest /\ failsWith e stop b' s))
      -> In s (map source errs') \/ exists b', In b' (b :: rest) /\ failsWith e stop b' s).
    { intros errs' [H|(b' & Hin & Hf)]; [now left|].
      right. exists b'. split; [now right|assumption]. }
    destruct (fst (loadModule e b stop)) as [d|err] eqn:Eo.
    + rewrite IH. split; [apply Hrest|].
      intros [H|(b' & [<-|Hin] & Hf)]; [now left| |].
      * destruct Hf as [_ (cause & Hf)]. congruence.
      * right. now exists b'.
    + destruct err as [msg|[s0 cause]]; simpl.
      * rewrite IH. split; [apply Hrest|].
        intros [H|(b' & [<-|Hin] & Hf)]; [now left| |].
        -- destruct Hf as [_ (cause & Hf)]. congruence.
        -- right. now exists b'.
      * rewrite IH.
        destruct (found errs (Build_moduleLoadError s0 cause)) eqn:Ef.
        -- apply found_In in Ef. simpl in Ef. split; [apply Hrest|].
           intros [H|(b' & [<-|Hin] & Hf)]; [now left| |].
           ++ destruct Hf as [_ (cause' & Hf)].
              rewrite Eo in Hf. injection Hf as <- _. now left.
           ++ right. now exists b'.
        -- rewrite map_app, in_app_iff. simpl. split.
           ++ intros [[H|[<-|[]]]|(b' & Hin & Hf)].
              ** now left.
              ** right. exists b. split; [now left|].
                 split; [assumption|now exists cause].
              ** right. exists b'. split; [now right|assumption].
           ++ intros [H|(b' & [<-|Hin] & Hf)].
              ** left. now left.
              ** destruct Hf as [_ (cause' & Hf)].
                 rewrite Eo in Hf. injection Hf as <- _. left. right. now left.
              ** right. now exists b'.
Qed.


Lemma loadModulesLoop_skip pre b post :
  Label b = EmptyString -> forall defs errs,
  loadModulesLoop e stop (pre ++ b :: post) defs errs
  = loadModulesLoop e stop (pre ++ post) defs errs.
Proof.
  intros Hb. induction pre as [|b0 pre IH]; intros defs errs.
  - simpl. now rewrite Hb.
  - simpl. destruct (String.eqb (Label b0) EmptyString); [apply IH|].
    apply bind_ext. intros [d|err]; [apply IH|].
    destruct (errors_As err); [apply IH|].
    apply bind_ext. intros _. apply IH.
Qed.

Lemma loaded_In expanded d :
  In d (loaded e stop expanded) ->
  exists b, In b expanded /\ Label b <> EmptyString
            /\ fst (loadModule e b stop) = Ok d
            /\ Definition_ d = b /\ Name d = Label b.
Proof.
  unfold loaded. rewrite in_flat_map. intros (b & Hin & Hd).
  destruct (String.eqb (Label b) EmptyString) eqn:El; [contradiction|].
  apply String.eqb_neq in El.
  destruct (fst (loadModule e b stop)) as [d'|err] eqn:Eo; [|contradiction].
  destruct Hd as [<-|[]].
  destruct (loadModule_Ok e b stop d' Eo)
    as (_ & _ & blocks & ignores & _ & _ & Hd).
  exists b. repeat split; try assumption; now rewrite Hd.
Qed.

Lemma loaded_app l1 l2 : loaded e stop (l1 ++ l2) = (loaded e stop l1 ++ loaded e stop l2)%list.
Proof. unfold loaded. apply flat_map_app. Qed.

(** The warning of line 84 for a block that fails with another error than
    a [moduleLoadError]. *)
Lemma loadModulesLoop_warns expanded : forall defs errs b err,
  In b expanded -> Label b <> EmptyString ->
  fst (loadModule e b stop) = Err err -> errors_As err = None ->
  In (Stderr ("WARNING: Failed to load module: " ++ Error err ++ NL))
     (snd (loadModulesLoop e stop expanded defs errs)).
Proof.
  induction expanded as [|b0 rest IH]; intros defs errs b err Hin Hl Ho Has;
    [contradiction|].
  simpl.
  destruct (String.eqb (Label b0) EmptyString) eqn:El0.
  { destruct Hin as [->|Hin]; [|now apply (IH _ _ b err)].
    apply String.eqb_eq in El0. contradiction. }
  rewrite snd_bind. apply in_or_app. right.
  destruct Hin as [->|Hin].
  - rewrite Ho, Has, bind_emit. now left.
  - destruct (fst (loadModule e b0 stop)) as [d0|err0];
      [now apply (IH _ _ b err)|].
    destruct (errors_As err0); [now apply (IH _ _ b err)|].
    rewrite bind_emit. right. now apply (IH _ _ b err).
Qed.

Lemma reportLoadErrors_In errs s :
  In s (map source errs) ->
  In (Stderr (" - " ++ s ++ NL)) (reportLoadErrors errs).
Proof.
  intros Hin. destruct errs as [|m errs]; [contradiction|].
  unfold reportLoadErrors. right.
  apply in_map_iff in Hin as (m' & <- & Hin).
  apply in_map_iff. now exists m'.
Qed.

(** Nothing that is written before the final report looks like one of
    its lines. *)
Lemma getModuleBlocksLoop_trace b ctx files : forall blocks ignores,
  Forall (fun ev => reportLine ev = false)
         (snd (getModuleBlocksLoop b ctx stop files blocks ignores)).
Proof.
  induction files as [|file rest IH]; intros blocks ignores; [constructor|].
  simpl.
  destruct (LoadBlocksFromFile file) as [[fileBlocks fileIgnores] [err|]].
  - destruct stop; [constructor|].
    rewrite bind_emit. constructor; [reflexivity|apply IH].
  - rewrite snd_bind. apply Forall_app. split; [|apply IH].
    destruct fileBlocks; repeat constructor.
Qed.

Lemma loadModule_trace b :
  Forall (fun ev => reportLine ev = false) (snd (loadModule e b stop)).
Proof.
  assert (Hres : forall source dir,
            Forall (fun ev => reportLine ev = false)
                   (snd (loadResolved e b source dir stop))).
  { intros source dir. unfold loadResolved. rewrite snd_bind.
    apply Forall_app. split.
    - unfold getModuleBlocks.
      destruct (LoadDirectory dir stop); [|constructor].
      apply getModuleBlocksLoop_trace.
    - destruct (fst (getModuleBlocks b dir stop)) as [[blocks ignores] [err|]];
        [constructor|].
      rewrite !bind_emit. repeat constructor. }
  unfold loadModule.
  destruct (String.eqb (Label b) EmptyString); [constructor|].
  rewrite !bind_emit. cbn [snd]. do 2 (constructor; [reflexivity|]).
  destruct (String.eqb (readSource (Attributes b)) EmptyString); [constructor|].
  destruct (String.eqb _ EmptyString); [|apply Hres].
  destruct (negb _ && negb _); [constructor|apply Hres].
Qed.

Lemma loadModulesLoop_trace expanded : forall defs errs,
  Forall (fun ev => reportLine ev = false)
         (snd (loadModulesLoop e stop expanded defs errs)).
Proof.
  induction expanded as [|b rest IH]; intros defs errs; [constructor|].
  simpl. destruct (String.eqb (Label b) EmptyString); [apply IH|].
  rewrite snd_bind. apply Forall_app. split; [apply loadModule_trace|].
  destruct (fst (loadModule e b stop)) as [d|err]; [apply IH|].
  destruct (errors_As err); [apply IH|].
  rewrite bind_emit. constructor; [reflexivity|apply IH].
Qed.


Lemma loadModulesOf_eq expanded :
  loadModulesOf e stop expanded
  = (fst (fst (loadModulesLoop e stop expanded [] [])),
     (snd (loadModulesLoop e stop expanded [] [])
      ++ reportLoadErrors (snd (fst (loadModulesLoop e stop expanded [] []))))%list).
Proof.
  unfold loadModulesOf, bind.
  now destruct (loadModulesLoop e stop expanded [] []) as [[defs errs] t].
Qed.

End ModulesFacts.

Import fixture.

(** A run over five blocks: two fail for the same source, one has no
    label, one has an empty source, one loads. *)
Example loadModules_run :
  let e := rootEvaluator
             [moduleBlock "a" "s3::bucket/path";
              moduleBlock EmptyString "./child";
              moduleBlock "b" "s3::bucket/path";
              moduleBlock "c" EmptyString;
              moduleBlock "d" "./child"] in
  map Name (fst (loadModules e true)) = ["d"]
  /\ snd (loadModules e true)
     = [TimerStart; TimerStop; TimerStart; TimerStop; TimerStart; TimerStop;
        Stderr ("WARNING: Failed to load module: "
                  ++ "could not read module source attribute at main.tf:3,1-11"
                  ++ NL);
        TimerStart; TimerStop; DebugAdded 1 "main.tf";
        DebugLoaded "/proj/modules/a/child" "main.tf:3,1-11"; CounterModules;
        Stderr ("WARNING: Did you forget to 'terraform init'? "
                  ++ "The following modules failed to load:" ++ NL);
        Stderr (" - s3::bucket/path" ++ NL)].
Proof. split; reflexivity. Qed.

(* ===================================================================== *)
(** ** The key of a module                                                *)
(* ===================================================================== *)

(** C1, as the code has it.  Called for the root module, the key of a label
    without a bracketed substring is the label; the key of "x[0][1]" is
    "x"; called for "module.a:module.b[0]", the key of "c" is "a.b.c"; for
    any other module than the root the key is made of the segments of the
    module name without their prefix "module.", joined by dots, a dot and
    the label, with the index groups removed; and for every module name and
    label the key holds no index group, that is, no brackets around one or
    more bytes of one line.  (Brackets that enclose nothing, and brackets
    without a partner, stay.) *)
Theorem key_resolver_strips_index_groups (e : Evaluator) (name : string) :
  (moduleName e = "root" -> indexRegExp.bracketed name = false ->
   getModuleKeyName e name = name)
  /\ (moduleName e = "root" -> getModuleKeyName e "x[0][1]" = "x")
  /\ (moduleName e = "module.a:module.b[0]" -> getModuleKeyName e "c" = "a.b.c")
  /\ (moduleName e <> "root" ->
      getModuleKeyName e name
      = indexRegExp.ReplaceAllString
          (strings.Join (map (fun m => strings.TrimPrefix m "module.")
                             (strings.Split (moduleName e) ":")) "."
           ++ "." ++ name))
  /\ ~ indexRegExp.indexGroupIn (getModuleKeyName e name).
Proof.
  unfold getModuleKeyName. repeat split.
  - intros -> Hb. simpl. now apply indexfacts.ReplaceAllString_plain.
  - intros ->. reflexivity.
  - intros ->. reflexivity.
  - intros Hroot. apply String.eqb_neq in Hroot. rewrite Hroot.
    now rewrite keyNameLoop_Join.
  - destruct (String.eqb (moduleName e) "root");
      apply indexfacts.ReplaceAllString_no_group.
Qed.

Lemma key_resolver_strips_index_groups_witness :
  getModuleKeyName (rootEvaluator []) "vpc" = "vpc"
  /\ getModuleKeyName (rootEvaluator []) "x[0][1]" = "x"
  /\ getModuleKeyName nestedEvaluator "c" = "a.b.c".
Proof.
  destruct (key_resolver_strips_index_groups (rootEvaluator []) "vpc")
    as (H1 & H2 & _ & _ & _).
  destruct (key_resolver_strips_index_groups nestedEvaluator "c")
    as (_ & _ & H3 & _ & _).
  split; [apply H1; reflexivity|].
  split; [apply H2; reflexivity|apply H3; reflexivity].
Defined.

(** C1 as stated fails: the key of the label "x[]" in the root module is
    "x[]", with both brackets. *)
Lemma key_resolver_keeps_empty_brackets :
  ~ (forall (e : Evaluator) (name : string),
       strings.contains "[" (getModuleKeyName e name) = false
       /\ strings.contains "]" (getModuleKeyName e name) = false).
Proof.
  intros H. destruct (H (rootEvaluator []) "x[]") as [H1 _].
  vm_compute in H1. discriminate.
Qed.

(* ===================================================================== *)
(** ** Where a module is looked for                                       *)
(* ===================================================================== *)

(** C2.  A block with a label and a source, and metadata with an entry for
    the key of the block: [loadModule] loads from
    clean(join(projectRoot, Dir)) of the entry that the scan finds (the
    first one for the key; the entry at hand when the entries for the key
    agree on [Dir]), whatever the source looks like, and it succeeds as
    soon as the directory loads. *)
Theorem metadata_takes_priority {P : Platform} {C : Collaborators}
    (e : Evaluator) (b : Block) (stop : bool)
    (metadata : ModulesMetadata) (entry : ModuleMetadata) :
  Label b <> EmptyString ->
  readSource (Attributes b) <> EmptyString ->
  moduleMetadata e = Some metadata ->
  In entry (metadata_Modules metadata) ->
  Key entry = getModuleKeyName e (Label b) ->
  exists first dir,
    metadataEntry e b = Some first
    /\ In first (metadata_Modules metadata)
    /\ Key first = Key entry
    /\ ((forall m, In m (metadata_Modules metadata) -> Key m = Key entry ->
                   Dir m = Dir entry) -> Dir first = Dir entry)
    /\ dir = filepath_Clean (filepath_Join (projectRootPath e) (Dir first))
    /\ loadModule e b stop
       = (emit TimerStart ;;; emit TimerStop ;;;
          loadResolved e b (readSource (Attributes b)) dir stop)
    /\ (snd (fst (getModuleBlocks b dir stop)) = None ->
        exists d, fst (loadModule e b stop) = Ok d /\ Path d = dir).
Proof.
  intros Hlabel Hsource Hmeta Hin Hkey.
  assert (Hmatch : metadataMatch e b = true).
  { unfold metadataMatch. rewrite Hmeta. apply existsb_exists.
    exists entry. split; [assumption|]. now apply String.eqb_eq. }
  apply metadataEntry_match in Hmatch as (first & Hfirst).
  destruct (metadataEntry_In e b first Hfirst) as (metadata' & Hm' & Hin' & Hkey').
  assert (metadata' = metadata) by congruence; subst metadata'.
  exists first, (filepath_Clean (filepath_Join (projectRootPath e) (Dir first))).
  assert (Heq : loadModule e b stop
                = (emit TimerStart ;;; emit TimerStop ;;;
                   loadResolved e b (readSource (Attributes b))
                     (filepath_Clean (filepath_Join (projectRootPath e) (Dir first)))
                     stop)).
  { rewrite (loadModule_resolution e b stop Hlabel Hsource).
    unfold resolution. now rewrite Hfirst. }
  repeat split; try assumption; try congruence.
  - intros Hagree. apply Hagree; congruence.
  - intros Hnone. rewrite Heq, !bind_emit. simpl. rewrite loadResolved_fst.
    destruct (fst (getModuleBlocks b _ stop)) as [[blocks ignores] err].
    simpl in Hnone. subst err. eexists. split; reflexivity.
Qed.

Lemma metadata_takes_priority_witness :
  exists d,
    fst (loadModule (cachedEvaluator [])
                    (moduleBlock "x" "git::https://example.com/x.git") true) = Ok d
    /\ Path d = "/proj/vendor/x".
Proof.
  destruct (metadata_takes_priority (cachedEvaluator [])
              (moduleBlock "x" "git::https://example.com/x.git") true
              {| metadata_Modules := [ {| Key := "x"; Dir := "vendor/x" |} ] |}
              {| Key := "x"; Dir := "vendor/x" |})
    as (first & dir & Hfirst & _ & _ & _ & Hdir & _ & Hok).
  - discriminate.
  - discriminate.
  - reflexivity.
  - simpl. now left.
  - reflexivity.
  - injection Hfirst as <-. subst dir. apply Hok. reflexivity.
Defined.

(** The part of C3 that holds on every platform. *)
Lemma local_resolution {P : Platform} {C : Collaborators}
    (e : Evaluator) (b : Block) (stop : bool) :
  Label b <> EmptyString ->
  readSource (Attributes b) <> EmptyString ->
  metadataMatch e b = false ->
  (localSource (readSource (Attributes b)) = false ->
   loadModule e b stop
   = (Err (LoadError (Build_moduleLoadError (readSource (Attributes b))
                        (errorString "missing source code"))),
      [TimerStart; TimerStop]))
  /\ (localSource (readSource (Attributes b)) = true ->
      loadModule e b stop
      = (emit TimerStart ;;; emit TimerStop ;;;
         loadResolved e b (readSource (Attributes b))
           (filepath_Join (modulePath e) (readSource (Attributes b))) stop)).
Proof.
  intros Hlabel Hsource Hmatch.
  assert (Hentry : metadataEntry e b = None).
  { destruct (metadataEntry e b) as [module|] eqn:E; [|reflexivity].
    assert (metadataMatch e b = true) by (apply metadataEntry_match; eauto).
    congruence. }
  rewrite (loadModule_resolution e b stop Hlabel Hsource).
  unfold resolution. rewrite Hentry.
  split; intros ->; [|reflexivity].
  now rewrite !bind_emit.
Qed.

(** C3.  A block with a label and a source and without a metadata entry:
    a source that does not start with "./" or "../" (with the separator of
    the platform) fails with the [moduleLoadError] of that source and the
    cause "missing source code"; any other source is loaded from
    join(directory of the current module, source), and on Unix the source
    "../shared" in "/proj/modules/a" is loaded from "/proj/modules/shared". *)
Theorem local_sources_only {P : Platform} {C : Collaborators}
    (e : Evaluator) (b : Block) (stop : bool) :
  Label b <> EmptyString ->
  readSource (Attributes b) <> EmptyString ->
  metadataMatch e b = false ->
  (localSource (readSource (Attributes b)) = false ->
   loadModule e b stop
   = (Err (LoadError (Build_moduleLoadError (readSource (Attributes b))
                        (errorString "missing source code"))),
      [TimerStart; TimerStop]))
  /\ (localSource (readSource (Attributes b)) = true ->
      loadModule e b stop
      = (emit TimerStart ;;; emit TimerStop ;;;
         loadResolved e b (readSource (Attributes b))
           (filepath_Join (modulePath e) (readSource (Attributes b))) stop))
  /\ (modulePath e = "/proj/modules/a" ->
      readSource (Attributes b) = "../shared" ->
      loadModule (P := unix) e b stop
      = (emit TimerStart ;;; emit TimerStop ;;;
         loadResolved e b "../shared" "/proj/modules/shared" stop)).
Proof.
  intros Hlabel Hsource Hmatch.
  destruct (local_resolution e b stop Hlabel Hsource Hmatch) as [H1 H2].
  do 2 (split; [assumption|]).
  intros Hdir Hsrc.
  destruct (local_resolution (P := unix) e b stop Hlabel Hsource Hmatch)
    as [_ H3].
  rewrite Hsrc, Hdir in H3. apply H3. reflexivity.
Qed.

Lemma local_sources_only_witness :
  (exists d, fst (loadModule (rootEvaluator []) (moduleBlock "s" "../shared") false)
             = Ok d /\ Path d = "/proj/modules/shared")
  /\ fst (loadModule (rootEvaluator [])
            (moduleBlock "g" "git::https://example.com/mod") false)
     = Err (LoadError (Build_moduleLoadError "git::https://example.com/mod"
                         (errorString "missing source code"))).
Proof.
  split.
  - destruct (local_sources_only (rootEvaluator [])
                (moduleBlock "s" "../shared") false) as (_ & _ & H);
      [discriminate|discriminate|reflexivity|].
    rewrite H by reflexivity. eexists. split; reflexivity.
  - destruct (local_sources_only (rootEvaluator [])
                (moduleBlock "g" "git::https://example.com/mod") false)
      as (H & _ & _); [discriminate|discriminate|reflexivity|].
    rewrite H by reflexivity. reflexivity.
Defined.

(* ===================================================================== *)
(** ** Loading the files of a directory                                   *)
(* ===================================================================== *)

(** C5.  When the files of the directory are listed: without
    [stopOnHCLError], [getModuleBlocks] returns the blocks and the ignores
    of the files that parse and no error - nothing at all, and still no
    error, when no file parses; with [stopOnHCLError], one file that does
    not parse makes it return no block, no ignore and the error, and
    without such a file it returns the blocks and ignores of all files. *)
Theorem directory_loader_partial_failure {C : Collaborators}
    (b : Block) (dir : string) (files : list File) :
  (LoadDirectory dir false = Ok files ->
   fst (getModuleBlocks b dir false)
   = (parsedBlocks b block_NewContext files, parsedIgnores files, None))
  /\ (LoadDirectory dir false = Ok files ->
      (forall file, In file files -> fileErrorOf file <> None) ->
      fst (getModuleBlocks b dir false) = ([], [], None))
  /\ (LoadDirectory dir true = Ok files ->
      (exists file, In file files /\ fileErrorOf file <> None) ->
      exists err, firstError files = Some err
                  /\ fst (getModuleBlocks b dir true) = ([], [], Some err))
  /\ (LoadDirectory dir true = Ok files ->
      (forall file, In file files -> fileErrorOf file = None) ->
      fst (getModuleBlocks b dir true)
      = (parsedBlocks b block_NewContext files, parsedIgnores files, None)).
Proof.
  unfold getModuleBlocks. repeat split.
  - intros ->. now rewrite getModuleBlocksLoop_tolerant.
  - intros -> Hall. rewrite getModuleBlocksLoop_tolerant. simpl.
    assert (Hb : parsedBlocks b block_NewContext files = []).
    { destruct (parsedBlocks b block_NewContext files) as [|blk rest] eqn:E;
        [reflexivity|].
      assert (Hin : In blk (parsedBlocks b block_NewContext files))
        by (rewrite E; now left).
      apply In_parsedBlocks in Hin as (file & _ & Hin & Herr & _).
      now apply Hall in Hin. }
    assert (Hi : parsedIgnores files = []).
    { destruct (parsedIgnores files) as [|ig rest] eqn:E; [reflexivity|].
      assert (Hin : In ig (parsedIgnores files)) by (rewrite E; now left).
      apply In_parsedIgnores in Hin as (file & Hin & Herr & _).
      now apply Hall in Hin. }
    now rewrite Hb, Hi.
  - intros -> Hbad. apply firstError_Some in Hbad as (err & Herr).
    exists err. split; [assumption|].
    now rewrite getModuleBlocksLoop_strict, Herr.
  - intros -> Hall. apply firstError_None in Hall.
    now rewrite getModuleBlocksLoop_strict, Hall.
Qed.

Lemma directory_loader_partial_failure_witness :
  fst (getModuleBlocks (moduleBlock "s" "../shared") "/proj/modules/shared" false)
  = ([block_New "aws_s3_bucket.logs" tt (Some (moduleBlock "s" "../shared")) None;
      block_New "output.arn" tt (Some (moduleBlock "s" "../shared")) None],
     ["ignore:main"; "ignore:outputs"], None)
  /\ fst (getModuleBlocks (moduleBlock "s" "../shared") "/proj/modules/shared" true)
     = ([], [], Some syntaxError)
  /\ fst (getModuleBlocks (moduleBlock "x" "./x") "/proj/vendor/x" true)
     = ([block_New "aws_s3_bucket.logs" tt (Some (moduleBlock "x" "./x")) None],
        ["ignore:main"], None).
Proof.
  split; [|split].
  - destruct (directory_loader_partial_failure (C := host) (moduleBlock "s" "../shared")
                "/proj/modules/shared" ["main.tf"; "broken.tf"; "outputs.tf"])
      as (H & _).
    rewrite H by reflexivity. reflexivity.
  - destruct (directory_loader_partial_failure (C := host) (moduleBlock "s" "../shared")
                "/proj/modules/shared" ["main.tf"; "broken.tf"; "outputs.tf"])
      as (_ & _ & H & _).
    destruct H as (err & Herr & ->).
    + reflexivity.
    + exists "broken.tf". split; [simpl; tauto|discriminate].
    + injection Herr as <-. reflexivity.
  - destruct (directory_loader_partial_failure (C := host) (moduleBlock "x" "./x")
                "/proj/vendor/x" ["main.tf"]) as (_ & _ & _ & H).
    rewrite H; [reflexivity|reflexivity|].
    intros file [<-|[]]. reflexivity.
Defined.

(** C6, as the code has it.  Without [stopOnHCLError] the ignores that
    [getModuleBlocks] returns are those of the files whose parse returned
    no error, in the order of the files, whether or not such a file has
    blocks; what the parser returned together with an error is dropped
    with the file. *)
Theorem ignores_of_parsed_files {C : Collaborators}
    (b : Block) (dir : string) (files : list File) :
  LoadDirectory dir false = Ok files ->
  snd (fst (fst (getModuleBlocks b dir false))) = parsedIgnores files
  /\ forall ig,
       In ig (snd (fst (fst (getModuleBlocks b dir false))))
       <-> exists file, In file files /\ fileErrorOf file = None
                        /\ In ig (fileIgnoresOf file).
Proof.
  intros Hdir. unfold getModuleBlocks. rewrite Hdir.
  rewrite getModuleBlocksLoop_tolerant. cbn [fst snd app].
  split; [reflexivity|].
  intros ig. apply In_parsedIgnores.
Qed.

Lemma ignores_of_parsed_files_witness :
  snd (fst (fst (getModuleBlocks (moduleBlock "s" "../shared")
                   "/proj/modules/shared" false)))
  = ["ignore:main"; "ignore:outputs"].
Proof.
  destruct (ignores_of_parsed_files (C := host) (moduleBlock "s" "../shared")
              "/proj/modules/shared" ["main.tf"; "broken.tf"; "outputs.tf"])
    as (H & _); [reflexivity|].
  rewrite H. reflexivity.
Defined.

(** C6 as stated fails: the parse of "broken.tf" returns an error and the
    ignore "ignore:broken"; the file is in the directory, and the ignore is
    not among those returned. *)
Lemma partial_ignores_are_dropped :
  LoadDirectory "/proj/modules/shared" false
  = Ok ["main.tf"; "broken.tf"; "outputs.tf"]
  /\ LoadBlocksFromFile (Collaborators := host) "broken.tf"
     = ([], ["ignore:broken"], Some syntaxError)
  /\ ~ In "ignore:broken"
         (snd (fst (fst (getModuleBlocks (moduleBlock "s" "../shared")
                           "/proj/modules/shared" false)))).
Proof.
  split; [reflexivity|]. split; [reflexivity|].
  vm_compute. intros [H|[H|[]]]; discriminate.
Qed.

(* ===================================================================== *)
(** ** The definition of a loaded module                                  *)
(* ===================================================================== *)

(** C7, as the code has it.  A definition that [loadModule] returns has the
    label of the block as [Name], the block as [Definition], a cleaned
    [Path] whose files [LoadDirectory] listed, and as [Modules] the one
    module made of the project root, the path, and the blocks and ignores
    that [getModuleBlocks] returned for the path.  The path is absolute
    when the project root and the directory of the current module are. *)
Theorem module_definition_fields {P : Platform} {C : Collaborators}
    (e : Evaluator) (b : Block) (stop : bool) (d : ModuleDefinition) :
  fst (loadModule e b stop) = Ok d ->
  Name d = Label b
  /\ Definition_ d = b
  /\ filepath_Clean (Path d) = Path d
  /\ (exists files, LoadDirectory (Path d) stop = Ok files)
  /\ (exists blocks ignores,
        fst (getModuleBlocks b (Path d) stop) = (blocks, ignores, None)
        /\ Modules d = [NewHCLModule (projectRootPath e) (Path d) blocks ignores])
  /\ (filepath_IsAbs (projectRootPath e) = true ->
      filepath_IsAbs (modulePath e) = true ->
      filepath_IsAbs (Path d) = true).
Proof.
  intros Hok.
  destruct (loadModule_Ok e b stop d Hok)
    as (Hlabel & Hsource & blocks & ignores & Hres & Hget & Hd).
  split; [now rewrite Hd|]. split; [now rewrite Hd|].
  unfold resolution in Hres.
  split; [|split; [|split]].
  - destruct (metadataEntry e b) as [module|].
    + injection Hres as <-. apply Clean_idempotent.
    + destruct (localSource _); [|discriminate].
      injection Hres as <-. now apply Join_cleaned.
  - exact (getModuleBlocks_enumerated b (Path d) stop blocks ignores Hget).
  - exists blocks, ignores. split; [assumption|now rewrite Hd].
  - intros Hroot Hdir.
    destruct (metadataEntry e b) as [module|].
    + injection Hres as <-. rewrite Clean_IsAbs. now apply Join_IsAbs.
    + destruct (localSource _); [|discriminate].
      injection Hres as <-. now apply Join_IsAbs.
Qed.

Lemma module_definition_fields_witness :
  exists d,
    fst (loadModule (rootEvaluator []) (moduleBlock "c" "./child") true) = Ok d
    /\ Name d = "c" /\ Path d = "/proj/modules/a/child"
    /\ filepath_Clean (Path d) = Path d
    /\ filepath_IsAbs (Path d) = true.
Proof.
  pose (b := moduleBlock "c" "./child").
  pose (d := {| Name := "c"; Path := "/proj/modules/a/child"; Definition_ := b;
                Modules := [NewHCLModule "/proj" "/proj/modules/a/child"
                              [block_New "aws_s3_bucket.logs" tt (Some b) None]
                              ["ignore:main"]] |}).
  assert (Hok : fst (loadModule (rootEvaluator []) b true) = Ok d)
    by reflexivity.
  exists d. split; [exact Hok|].
  destruct (module_definition_fields (rootEvaluator []) b true d Hok)
    as (Hname & _ & Hclean & _ & _ & Habs).
  split; [exact Hname|]. split; [reflexivity|].
  split; [exact Hclean|]. apply Habs; reflexivity.
Defined.

(** C7 as stated fails: called with the project root and the module
    directory ".", [loadModule] returns for the source "./child" a
    definition with the path "child", which is not absolute. *)
Lemma relative_path_is_returned :
  exists d,
    fst (loadModule (relativeEvaluator []) (moduleBlock "c" "./child") true) = Ok d
    /\ Path d = "child"
    /\ filepath_IsAbs (Path d) = false.
Proof. eexists. repeat split. Qed.

(* ===================================================================== *)
(** ** Loading the module blocks                                          *)
(* ===================================================================== *)

Lemma append_NL_inj s1 s2 : s1 ++ NL = s2 ++ NL -> s1 = s2.
Proof.
  revert s2. induction s1 as [|c s1 IH]; intros [|d s2]; simpl; intros H.
  - reflexivity.
  - injection H as _ H. now destruct s2.
  - injection H as _ H. now destruct s1.
  - injection H as -> H. f_equal. now apply IH.
Qed.





(** C8.  A block with the empty label among the expanded module blocks
    leaves [loadModules] as it is without the block - the definitions and
    everything written - and no definition returned belongs to it. *)
Theorem empty_label_is_skipped {P : Platform} {C : Collaborators}
    (e : Evaluator) (stop : bool) (pre : list Block) (b : Block)
    (post : list Block) :
  expandBlocks e (OfType (blocks e) "module") = (pre ++ b :: post)%list ->
  Label b = EmptyString ->
  loadModules e stop = loadModulesOf e stop (pre ++ post)
  /\ forall d, In d (fst (loadModules e stop)) ->
               Definition_ d <> b /\ Name d <> EmptyString.
Proof.
  intros Hexp Hlabel. unfold loadModules. rewrite Hexp.
  split.
  - unfold loadModulesOf. now rewrite loadModulesLoop_skip.
  - intros d Hd. rewrite loadModulesOf_eq in Hd. simpl in Hd.
    rewrite loadModulesLoop_defs in Hd. simpl in Hd.
    apply loaded_In in Hd as (b' & _ & Hne & _ & Hdef & Hname).
    split; congruence.
Qed.

Lemma empty_label_is_skipped_witness :
  loadModules (rootEvaluator [moduleBlock EmptyString "./child"; moduleBlock "d" "./child"])
              true
  = loadModulesOf (rootEvaluator [moduleBlock EmptyString "./child"; moduleBlock "d" "./child"])
                  true [moduleBlock "d" "./child"].
Proof.
  destruct (empty_label_is_skipped
              (rootEvaluator [moduleBlock EmptyString "./child"; moduleBlock "d" "./child"])
              true [] (moduleBlock EmptyString "./child") [moduleBlock "d" "./child"])
    as [H _]; [reflexivity|reflexivity|exact H].
Defined.

(** X18.  On module blocks whose values have content, the definitions of
    [loadModules] are, for every evaluator and either value of
    [stopOnHCLError], those of the blocks that load, in their order: a
    block for which [loadModule] returns an error takes nothing but its
    own definition away from the result, and its error is written - the
    warning of line 84 for an error that is no [moduleLoadError], the line
    of its source in the final report otherwise.  (That a call returns at
    all is the subject of the part on runs.) *)
Theorem failing_block_removes_only_itself {P : Platform} {C : Collaborators}
    (e : Evaluator) (stop : bool) :
  fst (loadModules e stop)
  = loaded e stop (expandBlocks e (OfType (blocks e) "module"))
  /\ (forall pre b post err,
        expandBlocks e (OfType (blocks e) "module") = (pre ++ b :: post)%list ->
        fst (loadModule e b stop) = Err err ->
        fst (loadModules e stop) = (loaded e stop pre ++ loaded e stop post)%list)
  /\ (forall b err,
        In b (expandBlocks e (OfType (blocks e) "module")) ->
        Label b <> EmptyString ->
        fst (loadModule e b stop) = Err err ->
        match errors_As err with
        | Some loadErr =>
            In (Stderr (" - " ++ source loadErr ++ NL)) (snd (loadModules e stop))
        | None =>
            In (Stderr ("WARNING: Failed to load module: " ++ Error err ++ NL))
               (snd (loadModules e stop))
        end).
Proof.
  unfold loadModules.
  set (expanded := expandBlocks e (OfType (blocks e) "module")).
  rewrite loadModulesOf_eq. cbn [fst snd].
  rewrite loadModulesLoop_defs. cbn [app].
  split; [reflexivity|]. split.
  - intros pre b post err -> Herr.
    rewrite loaded_app. f_equal.
    change (b :: post) with ([b] ++ post)%list. rewrite loaded_app.
    unfold loaded at 1. cbn [flat_map]. rewrite Herr.
    now destruct (String.eqb (Label b) EmptyString).
  - intros b err Hin Hlabel Herr.
    destruct (errors_As err) as [loadErr|] eqn:Eas.
    + apply in_or_app. right. apply reportLoadErrors_In.
      apply loadModulesLoop_sources. right. exists b. split; [assumption|].
      split; [assumption|].
      destruct err as [msg|[s cause]]; [discriminate|].
      injection Eas as <-. now exists cause.
    + apply in_or_app. left. now apply loadModulesLoop_warns with (b := b).
Qed.

Lemma failing_block_removes_only_itself_witness :
  fst (loadModules
         (rootEvaluator [moduleBlock "a" "s3::bucket/path";
                         moduleBlock "c" EmptyString; moduleBlock "d" "./child"]) true)
  = loaded (rootEvaluator [moduleBlock "a" "s3::bucket/path";
                           moduleBlock "c" EmptyString; moduleBlock "d" "./child"]) true
           [moduleBlock "d" "./child"]
  /\ In (Stderr (" - s3::bucket/path" ++ NL))
        (snd (loadModules
                (rootEvaluator [moduleBlock "a" "s3::bucket/path";
                                moduleBlock "c" EmptyString; moduleBlock "d" "./child"])
                true)).
Proof.
  destruct (failing_block_removes_only_itself
              (rootEvaluator [moduleBlock "a" "s3::bucket/path";
                              moduleBlock "c" EmptyString; moduleBlock "d" "./child"]) true)
    as (_ & Hdrop & Hdiag).
  split.
  - rewrite (Hdrop [moduleBlock "a" "s3::bucket/path"] (moduleBlock "c" EmptyString)
                   [moduleBlock "d" "./child"]
                   (errorString ("could not read module source attribute at "
                                   ++ "main.tf:3,1-11")));
      reflexivity.
  - apply (Hdiag (moduleBlock "a" "s3::bucket/path")
                 (LoadError (Build_moduleLoadError "s3::bucket/path"
                               (errorString "missing source code")))).
    + simpl. tauto.
    + discriminate.
    + reflexivity.
Defined.

(** The error of line 124 for every block without a usable source. *)
Lemma no_source_error {P : Platform} {C : Collaborators}
    (e : Evaluator) (b : Block) (stop : bool) :
  Label b <> EmptyString -> noSource b = true ->
  loadModule e b stop
  = (Err (errorString ("could not read module source attribute at " ++ Range b)),
     [TimerStart; TimerStop]).
Proof.
  intros Hlabel Hno. apply loadModule_no_source; [assumption|].
  now apply readSource_noSource.
Qed.

Lemma sourceIsEmptyString_noSource b :
  sourceIsEmptyString b = true -> noSource b = true.
Proof.
  unfold sourceIsEmptyString, noSource. intros H.
  apply andb_true_iff in H as [_ H].
  rewrite forallb_forall in *. intros attr Hin. specialize (H attr Hin).
  destruct (String.eqb (attr_Name attr) "source"); [|reflexivity].
  simpl in *. now destruct (attr_Value attr).
Qed.

(** C10.  A block with a label whose source attribute is the empty string
    fails with the error "could not read module source attribute at ..."
    of its range, whatever the evaluator holds (metadata, directories):
    the same result as for a block of that range whose source is missing
    or not a string.  The error is no [moduleLoadError]: [loadModules] writes its
    warning and leaves the collected load failures as they are. *)
Theorem empty_source_is_structural {P : Platform} {C : Collaborators}
    (e : Evaluator) (b : Block) (stop : bool) :
  Label b <> EmptyString ->
  sourceIsEmptyString b = true ->
  loadModule e b stop
  = (Err (errorString ("could not read module source attribute at " ++ Range b)),
     [TimerStart; TimerStop])
  /\ (forall e' stop', loadModule e' b stop' = loadModule e b stop)
  /\ (forall b', Label b' <> EmptyString -> noSource b' = true ->
                 Range b' = Range b ->
                 loadModule e b' stop = loadModule e b stop)
  /\ errors_As (errorString ("could not read module source attribute at "
                               ++ Range b)) = None
  /\ (forall rest defs errs,
        loadModulesLoop e stop (b :: rest) defs errs
        = (fst (loadModulesLoop e stop rest defs errs),
           ([TimerStart; TimerStop;
             Stderr ("WARNING: Failed to load module: "
                       ++ "could not read module source attribute at "
                       ++ Range b ++ NL)]
            ++ snd (loadModulesLoop e stop rest defs errs))%list)).
Proof.
  intros Hlabel Hempty.
  pose proof (no_source_error e b stop Hlabel
                (sourceIsEmptyString_noSource b Hempty)) as Hb.
  split; [exact Hb|]. split; [|split; [|split; [reflexivity|]]].
  - intros e' stop'. rewrite Hb.
    exact (no_source_error e' b stop' Hlabel
             (sourceIsEmptyString_noSource b Hempty)).
  - intros b' Hlabel' Hno' Hrange.
    now rewrite Hb, (no_source_error e b' stop Hlabel' Hno'), Hrange.
  - intros rest defs errs. cbn [loadModulesLoop].
    apply String.eqb_neq in Hlabel. rewrite Hlabel, Hb.
    unfold bind at 1. cbn [errors_As]. rewrite bind_emit.
    destruct (loadModulesLoop e stop rest defs errs) as [r t].
    reflexivity.
Qed.

Lemma empty_source_is_structural_witness :
  loadModule (cachedEvaluator []) (moduleBlock "c" EmptyString) true
  = (Err (errorString "could not read module source attribute at main.tf:3,1-11"),
     [TimerStart; TimerStop]).
Proof.
  destruct (empty_source_is_structural (cachedEvaluator [])
              (moduleBlock "c" EmptyString) true) as [H _];
    [discriminate|reflexivity|exact H].
Defined.


(* ===================================================================== *)
(** ** More about the key of a module                                     *)
(* ===================================================================== *)

Lemma string_app_assoc (a b c : string) : (a ++ b) ++ c = a ++ (b ++ c).
Proof. induction a; simpl; congruence. Qed.

Lemma string_app_nil (a : string) : a ++ EmptyString = a.
Proof. induction a; simpl; congruence. Qed.

Lemma contains_app c a b :
  strings.contains c (a ++ b) = strings.contains c a || strings.contains c b.
Proof.
  induction a as [|d a IH]; simpl; [reflexivity|].
  now rewrite IH, orb_assoc.
Qed.

Lemma matchAt_other a t :
  Ascii.eqb a "[" = false -> indexRegExp.matchAt (String a t) = None.
Proof. intros Ha. destruct t as [|c r]; simpl; [reflexivity|now rewrite Ha]. Qed.

(** Text without an opening bracket is kept. *)
Lemma ReplaceAllString_text p s :
  strings.contains "[" p = false ->
  indexRegExp.ReplaceAllString (p ++ s) = p ++ indexRegExp.ReplaceAllString s.
Proof.
  induction p as [|c p IH]; [reflexivity|].
  simpl. intros H. apply orb_false_iff in H as [Hc Hp].
  rewrite indexfacts.ReplaceAllString_cons, (matchAt_other c _ Hc).
  now rewrite IH.
Qed.

Lemma scanClose_index i s :
  strings.contains "]" i = false ->
  strings.contains indexRegExp.LF i = false ->
  indexRegExp.scanClose (i ++ String "]" s) = Some s.
Proof.
  induction i as [|c i IH]; simpl; [reflexivity|].
  intros Hb Hl. apply orb_false_iff in Hb as [Hcb Hb].
  apply orb_false_iff in Hl as [Hcl Hl].
  rewrite Hcb, Hcl. now apply IH.
Qed.

(** An index is dropped. *)
Lemma ReplaceAllString_index index s :
  indexOk index = true ->
  indexRegExp.ReplaceAllString (indexText index ++ s)
  = indexRegExp.ReplaceAllString s.
Proof.
  destruct index as [i|]; [|reflexivity].
  unfold indexOk, indexText. intros H.
  apply andb_true_iff in H as [H Hl]. apply andb_true_iff in H as [Hne Hb].
  apply negb_true_iff in Hne, Hb, Hl.
  destruct i as [|c i]; [discriminate|].
  simpl in Hb, Hl. apply orb_false_iff in Hb as [_ Hb].
  apply orb_false_iff in Hl as [Hcl Hl].
  change (("[" ++ String c i ++ "]") ++ s)
    with (String "[" (String c ((i ++ "]") ++ s))).
  rewrite string_app_assoc.
  rewrite indexfacts.ReplaceAllString_cons.
  cbn [indexRegExp.matchAt]. rewrite Ascii.eqb_refl, Hcl. cbn [negb andb].
  change ("]" ++ s) with (String "]" s).
  now rewrite (scanClose_index i s Hb Hl).
Qed.

(** X13.  In front of any string, text without an opening bracket followed
    by an index loses the index and nothing else: the replacement goes on
    behind the index. *)
Theorem index_behind_text_is_removed (p : string) (index : option string)
    (s : string) :
  strings.contains "[" p = false ->
  indexOk index = true ->
  indexRegExp.ReplaceAllString (p ++ indexText index ++ s)
  = p ++ indexRegExp.ReplaceAllString s.
Proof.
  intros Hp Hi. rewrite (ReplaceAllString_text p _ Hp).
  now rewrite (ReplaceAllString_index index s Hi).
Qed.

Lemma index_behind_text_is_removed_witness :
  indexRegExp.ReplaceAllString ("servers" ++ indexText (Some "0") ++ ".disk[1]")
  = "servers" ++ indexRegExp.ReplaceAllString ".disk[1]".
Proof.
  apply (index_behind_text_is_removed "servers" (Some "0") ".disk[1]");
    reflexivity.
Defined.

Lemma ReplaceAllString_fixed s :
  indexRegExp.hasMatch s = false -> indexRegExp.ReplaceAllString s = s.
Proof.
  induction s as [|c r IH]; [reflexivity|].
  change (indexRegExp.hasMatch (String c r))
    with (match indexRegExp.matchAt (String c r) with
          | Some _ => true
          | None => indexRegExp.hasMatch r
          end).
  rewrite indexfacts.ReplaceAllString_cons.
  destruct (indexRegExp.matchAt (String c r)); [discriminate|].
  intros H. now rewrite IH.
Qed.

(** X12.  Removing the index groups a second time changes nothing, and so
    the key of a key is the key, in the root module. *)
Theorem key_of_key_is_key (e : Evaluator) (name : string) :
  indexRegExp.ReplaceAllString (indexRegExp.ReplaceAllString name)
  = indexRegExp.ReplaceAllString name
  /\ (moduleName e = "root" ->
      getModuleKeyName e (getModuleKeyName e name) = getModuleKeyName e name).
Proof.
  assert (H : indexRegExp.ReplaceAllString (indexRegExp.ReplaceAllString name)
              = indexRegExp.ReplaceAllString name).
  { apply ReplaceAllString_fixed, indexfacts.hasMatch_ReplaceAllString. }
  split; [exact H|].
  intros Hroot. unfold getModuleKeyName. rewrite Hroot. exact H.
Qed.

Lemma key_of_key_is_key_witness :
  getModuleKeyName (rootEvaluator []) (getModuleKeyName (rootEvaluator []) "a[[]]")
  = getModuleKeyName (rootEvaluator []) "a[[]]".
Proof.
  destruct (key_of_key_is_key (rootEvaluator []) "a[[]]") as [_ H].
  apply H. reflexivity.
Defined.

Lemma HasPrefix_append p t : strings.HasPrefix (p ++ t) p = true.
Proof.
  induction p as [|c p IH]; [apply HasPrefix_nil|].
  change (String c p ++ t) with (String c (p ++ t)).
  now rewrite HasPrefix_cons, Ascii.eqb_refl, IH.
Qed.

Lemma substring_all t : substring 0 (String.length t) t = t.
Proof. induction t as [|c t IH]; simpl; congruence. Qed.

(** [TrimPrefix] takes back what was put in front. *)
Lemma TrimPrefix_append p t : strings.TrimPrefix (p ++ t) p = t.
Proof.
  unfold strings.TrimPrefix. rewrite HasPrefix_append.
  induction p as [|c p IH]; simpl.
  - rewrite Nat.sub_0_r. apply substring_all.
  - exact IH.
Qed.

Lemma moduleRef_trimmed segment :
  strings.TrimPrefix (moduleRef segment) "module."
  = fst segment ++ indexText (snd segment).
Proof. unfold moduleRef. apply TrimPrefix_append. Qed.

Lemma moduleRef_no_colon segment :
  segmentOk segment = true -> strings.contains ":" (moduleRef segment) = false.
Proof.
  unfold segmentOk, moduleRef. intros H.
  apply andb_true_iff in H as [H Hi]. apply andb_true_iff in H as [H _].
  apply andb_true_iff in H as [Hn _]. apply negb_true_iff in Hn, Hi.
  change ("module." ++ fst segment ++ indexText (snd segment))
    with ("module." ++ (fst segment ++ indexText (snd segment))).
  rewrite !contains_app, Hn, Hi. reflexivity.
Qed.

Lemma contextOf_not_root segments :
  segments <> [] -> String.eqb (contextOf segments) "root" = false.
Proof.
  destruct segments as [|segment [|segment2 rest]]; [congruence| |];
    intros _; reflexivity.
Qed.

(** The segments joined by dots and followed by any string: the indexes go,
    the names and the dots stay. *)
Lemma ReplaceAllString_segments segments : forall s,
  segments <> [] ->
  forallb segmentOk segments = true ->
  indexRegExp.ReplaceAllString
    (strings.Join (map (fun segment => fst segment ++ indexText (snd segment))
                       segments) "." ++ s)
  = strings.Join (map fst segments) "." ++ indexRegExp.ReplaceAllString s.
Proof.
  induction segments as [|[n i] rest IH]; intros s Hne Hok; [congruence|].
  cbn [forallb] in Hok. apply andb_true_iff in Hok as [Hseg Hrest].
  unfold segmentOk in Hseg. cbn [fst snd] in Hseg.
  apply andb_true_iff in Hseg as [Hseg _].
  apply andb_true_iff in Hseg as [Hseg Hi].
  apply andb_true_iff in Hseg as [_ Hn]. apply negb_true_iff in Hn.
  destruct rest as [|segment2 rest].
  - cbn [map strings.Join fst snd]. rewrite string_app_assoc.
    rewrite (ReplaceAllString_text n _ Hn).
    now rewrite (ReplaceAllString_index i s Hi).
  - change (strings.Join (map (fun segment => fst segment ++ indexText (snd segment))
                              ((n, i) :: segment2 :: rest)) ".")
      with ((n ++ indexText i) ++ "."
            ++ strings.Join (map (fun segment => fst segment ++ indexText (snd segment))
                                 (segment2 :: rest)) ".").
    change (strings.Join (map fst ((n, i) :: segment2 :: rest)) ".")
      with (n ++ "." ++ strings.Join (map fst (segment2 :: rest)) ".").
    rewrite !string_app_assoc.
    rewrite (ReplaceAllString_text n _ Hn), (ReplaceAllString_index i _ Hi).
    rewrite (ReplaceAllString_text "." _ eq_refl).
    rewrite IH by (try assumption; discriminate).
    reflexivity.
Qed.

(** X14.  Below the root the key has the format of the module metadata,
    for indexes that the expression matches whole: for a module name made
    of segments "module.<name><index>" joined by colons (names without an
    opening bracket, names and indexes without a colon), and a label
    without an opening bracket with or without an index, where every
    index is not empty and has no closing bracket and no line feed in it,
    the key is the names joined by dots, a dot, and the label.  An index
    with a closing bracket in it, as of a [for_each] key, is outside the
    statement. *)
Theorem nested_key_is_dotted_path (e : Evaluator)
    (segments : list (string * option string)) (name : string)
    (index : option string) :
  segments <> [] ->
  forallb segmentOk segments = true ->
  moduleName e = contextOf segments ->
  strings.contains "[" name = false ->
  indexOk index = true ->
  getModuleKeyName e (name ++ indexText index)
  = strings.Join (map fst segments) "." ++ "." ++ name.
Proof.
  intros Hne Hok Hname Hlabel Hindex.
  unfold getModuleKeyName. rewrite Hname, (contextOf_not_root segments Hne).
  unfold contextOf.
  rewrite (Split_Join (map moduleRef segments) ":").
  - rewrite keyNameLoop_Join. cbn [append]. rewrite map_map.
    rewrite (map_ext _ (fun segment => fst segment ++ indexText (snd segment))
                     moduleRef_trimmed).
    rewrite (ReplaceAllString_segments segments _ Hne Hok).
    change ("." ++ name ++ indexText index)
      with (String "." (name ++ indexText index)).
    rewrite <- (string_app_nil (indexText index)).
    change (String "." (name ++ indexText index ++ EmptyString))
      with (String "." name ++ indexText index ++ EmptyString).
    rewrite (ReplaceAllString_text (String "." name) _ Hlabel).
    rewrite (ReplaceAllString_index index _ Hindex).
    cbn. now rewrite string_app_nil.
  - destruct segments; [congruence|discriminate].
  - apply Forall_forall. intros piece Hin.
    apply in_map_iff in Hin as (segment & <- & Hin).
    apply moduleRef_no_colon.
    rewrite forallb_forall in Hok. now apply Hok.
Qed.

Lemma nested_key_is_dotted_path_witness :
  getModuleKeyName nestedEvaluator ("c" ++ indexText (Some "1")) = "a.b.c".
Proof.
  apply (nested_key_is_dotted_path nestedEvaluator
           [("a", None); ("b", Some "0")] "c" (Some "1"));
    (discriminate || reflexivity).
Defined.

(** X15.  In the root module, a label without an opening bracket followed
    by an index that is not empty and has no closing bracket and no line
    feed in it has the label as its key.  An index with a closing bracket
    in it, as of a [for_each] key, is outside the statement. *)
Theorem root_key_of_instance (e : Evaluator) (name : string)
    (index : option string) :
  moduleName e = "root" ->
  strings.contains "[" name = false ->
  indexOk index = true ->
  getModuleKeyName e (name ++ indexText index) = name.
Proof.
  intros Hroot Hlabel Hindex. unfold getModuleKeyName. rewrite Hroot.
  cbn [String.eqb Ascii.eqb Bool.eqb].
  rewrite <- (string_app_nil (indexText index)).
  rewrite (ReplaceAllString_text name _ Hlabel).
  rewrite (ReplaceAllString_index index _ Hindex).
  apply string_app_nil.
Qed.

Lemma root_key_of_instance_witness :
  getModuleKeyName (rootEvaluator []) ("vpc" ++ indexText (Some "eu-west-1"))
  = "vpc".
Proof.
  apply (root_key_of_instance (rootEvaluator []) "vpc" (Some "eu-west-1"));
    reflexivity.
Defined.


(* ===================================================================== *)
(** ** More about [loadModule]                                            *)
(* ===================================================================== *)

Lemma metadataEntry_withoutMetadata e b :
  metadataEntry (withoutMetadata e) b = None.
Proof. reflexivity. Qed.

(** X7.  Metadata without an entry for the key of the block counts as no
    metadata: [loadModule] returns and writes what it does for the
    evaluator without metadata. *)
Theorem metadata_without_entry_is_ignored {P : Platform} {C : Collaborators}
    (e : Evaluator) (b : Block) (stop : bool) :
  metadataMatch e b = false ->
  loadModule e b stop = loadModule (withoutMetadata e) b stop.
Proof.
  intros Hmatch.
  assert (Hentry : metadataEntry e b = None).
  { destruct (metadataEntry e b) as [module|] eqn:E; [|reflexivity].
    assert (metadataMatch e b = true) by (apply metadataEntry_match; eauto).
    congruence. }
  destruct (String.eqb (Label b) EmptyString) eqn:El.
  { apply String.eqb_eq in El. now rewrite !loadModule_no_label. }
  apply String.eqb_neq in El.
  destruct (String.eqb (readSource (Attributes b)) EmptyString) eqn:Es.
  { apply String.eqb_eq in Es. now rewrite !loadModule_no_source. }
  apply String.eqb_neq in Es.
  rewrite !loadModule_resolution by assumption.
  unfold resolution. now rewrite Hentry, metadataEntry_withoutMetadata.
Qed.

Lemma metadata_without_entry_is_ignored_witness :
  loadModule (cachedEvaluator []) (moduleBlock "d" "./child") true
  = loadModule (rootEvaluator []) (moduleBlock "d" "./child") true.
Proof.
  apply (metadata_without_entry_is_ignored (cachedEvaluator [])
           (moduleBlock "d" "./child") true).
  reflexivity.
Defined.

Lemma getModuleBlocks_result {C : Collaborators} b dir stop :
  fst (getModuleBlocks b dir stop)
  = match LoadDirectory dir stop with
    | Err err => ([], [], Some err)
    | Ok files =>
        if stop
        then match firstError files with
             | Some err => ([], [], Some err)
             | None => (parsedBlocks b block_NewContext files,
                        parsedIgnores files, None)
             end
        else (parsedBlocks b block_NewContext files, parsedIgnores files, None)
    end.
Proof.
  unfold getModuleBlocks.
  destruct (LoadDirectory dir stop) as [files|err]; [|reflexivity].
  destruct stop.
  - now rewrite getModuleBlocksLoop_strict.
  - now rewrite getModuleBlocksLoop_tolerant.
Qed.

(** X1.  An error of [loadModule] is one of three: the error for a block
    without a label, the error for a block without a source, or a
    [moduleLoadError] that carries the source of the block as it is written
    there; its cause is "missing source code" for a source that is not
    local and has no metadata entry, the error of [LoadDirectory] for the
    directory, or - only with [stopOnHCLError] - the error of the first
    file of the directory that does not parse. *)
Theorem loadModule_errors {P : Platform} {C : Collaborators}
    (e : Evaluator) (b : Block) (stop : bool) (err : error) :
  fst (loadModule e b stop) = Err err ->
  (Label b = EmptyString
   /\ err = errorString ("module without label at " ++ Range b))
  \/ (Label b <> EmptyString /\ readSource (Attributes b) = EmptyString
      /\ err = errorString ("could not read module source attribute at "
                              ++ Range b))
  \/ (Label b <> EmptyString /\ readSource (Attributes b) <> EmptyString
      /\ exists cause,
           err = LoadError (Build_moduleLoadError (readSource (Attributes b)) cause)
           /\ ((cause = errorString "missing source code"
                /\ metadataMatch e b = false
                /\ localSource (readSource (Attributes b)) = false)
               \/ (exists dir,
                     resolution e b (readSource (Attributes b)) = Ok dir
                     /\ (LoadDirectory dir stop = Err cause
                         \/ (stop = true
                             /\ exists files,
                                  LoadDirectory dir true = Ok files
                                  /\ firstError files = Some cause))))).
Proof.
  intros Herr.
  destruct (String.eqb (Label b) EmptyString) eqn:El.
  { apply String.eqb_eq in El. left. split; [assumption|].
    rewrite (loadModule_no_label e b stop El) in Herr. now injection Herr. }
  apply String.eqb_neq in El. right.
  destruct (String.eqb (readSource (Attributes b)) EmptyString) eqn:Es.
  { apply String.eqb_eq in Es. left. do 2 (split; [assumption|]).
    rewrite (loadModule_no_source e b stop El Es) in Herr. now injection Herr. }
  apply String.eqb_neq in Es. right. do 2 (split; [assumption|]).
  rewrite (loadModule_resolution e b stop El Es), !bind_emit in Herr.
  cbn [fst] in Herr.
  destruct (resolution e b (readSource (Attributes b))) as [dir|err0] eqn:Er.
  - rewrite loadResolved_fst, getModuleBlocks_result in Herr.
    destruct (LoadDirectory dir stop) as [files|cause] eqn:Ed.
    + destruct stop; [|discriminate].
      destruct (firstError files) as [cause|] eqn:Ef; [|discriminate].
      injection Herr as <-. exists cause. split; [reflexivity|].
      right. exists dir. split; [reflexivity|]. right. split; [reflexivity|].
      now exists files.
    + injection Herr as <-. exists cause. split; [reflexivity|].
      right. exists dir. split; [reflexivity|]. now left.
  - cbn in Herr. injection Herr as <-.
    unfold resolution in Er.
    destruct (metadataEntry e b) as [module|] eqn:Em; [discriminate|].
    destruct (localSource _) eqn:Eloc; [discriminate|].
    injection Er as <-. eexists. split; [reflexivity|]. left.
    split; [reflexivity|]. split; [|reflexivity].
    destruct (metadataMatch e b) eqn:Emm; [|reflexivity].
    apply metadataEntry_match in Emm as (module & Hm). congruence.
Qed.

Lemma loadModule_errors_witness :
  exists cause,
    fst (loadModule (rootEvaluator []) (moduleBlock "s" "../shared") true)
    = Err (LoadError (Build_moduleLoadError "../shared" cause))
    /\ cause = syntaxError.
Proof.
  assert (Hrun : fst (loadModule (rootEvaluator []) (moduleBlock "s" "../shared")
                        true)
                 = Err (LoadError (Build_moduleLoadError "../shared" syntaxError)))
    by reflexivity.
  destruct (loadModule_errors (rootEvaluator []) (moduleBlock "s" "../shared")
              true (LoadError (Build_moduleLoadError "../shared" syntaxError))
              Hrun)
    as [[H _]|[(_ & H & _)|(_ & _ & cause & Hc & _)]].
  - discriminate H.
  - discriminate H.
  - assert (Hcause : cause = syntaxError).
    { change (readSource (Attributes (moduleBlock "s" "../shared")))
        with "../shared" in Hc.
      now injection Hc. }
    exists cause. split; [now rewrite Hcause|exact Hcause].
Defined.

(** X2.  Without [stopOnHCLError], a block with a label and a source whose
    directory [LoadDirectory] lists always loads, whatever the files hold:
    the definition has the directory as its path and one module with the
    blocks and ignores of the files that parse. *)
Theorem listed_directory_loads {P : Platform} {C : Collaborators}
    (e : Evaluator) (b : Block) (dir : string) (files : list File) :
  Label b <> EmptyString ->
  readSource (Attributes b) <> EmptyString ->
  resolution e b (readSource (Attributes b)) = Ok dir ->
  LoadDirectory dir false = Ok files ->
  fst (loadModule e b false)
  = Ok {| Name := Label b; Path := dir; Definition_ := b;
          Modules := [NewHCLModule (projectRootPath e) dir
                        (parsedBlocks b block_NewContext files)
                        (parsedIgnores files)] |}.
Proof.
  intros Hlabel Hsource Hres Hdir.
  rewrite (loadModule_resolution e b false Hlabel Hsource), !bind_emit, Hres.
  cbn [fst]. rewrite loadResolved_fst, getModuleBlocks_result, Hdir.
  reflexivity.
Qed.

Lemma listed_directory_loads_witness :
  map Label (flat_map module_blocks
     (match fst (loadModule (rootEvaluator []) (moduleBlock "s" "../shared") false)
      with Ok d => Modules d | Err _ => [] end))
  = ["aws_s3_bucket.logs"; "output.arn"].
Proof.
  rewrite (listed_directory_loads (C := host) (rootEvaluator [])
             (moduleBlock "s" "../shared") "/proj/modules/shared"
             ["main.tf"; "broken.tf"; "outputs.tf"]);
    (discriminate || reflexivity).
Defined.

(* ===================================================================== *)
(** ** More about [getModuleBlocks]                                       *)
(* ===================================================================== *)

Lemma stderrOf_app t1 t2 :
  stderrOf (t1 ++ t2) = (stderrOf t1 ++ stderrOf t2)%list.
Proof. unfold stderrOf. apply flat_map_app. Qed.

(** X9.  The lines of the loop of [getModuleBlocks] (183-199) write to
    standard error one warning for each file for which
    [LoadBlocksFromFile] returns an error, in the order of the files, and
    no other line; with [stopOnHCLError] they write none.  What
    [LoadDirectory] and [LoadBlocksFromFile] write themselves is not
    counted. *)
Theorem file_loop_warnings {C : Collaborators}
    (b : Block) (ctx : block_Context) (stop : bool) (files : list File)
    (blocks : list Block) (ignores : list Ignore) :
  stderrOf (snd (getModuleBlocksLoop b ctx stop files blocks ignores))
  = if stop then [] else hclWarnings files.
Proof.
  revert blocks ignores.
  induction files as [|file rest IH]; intros blocks ignores.
  - now destruct stop.
  - cbn [getModuleBlocksLoop hclWarnings flat_map]. unfold fileErrorOf.
    destruct (LoadBlocksFromFile file) as [[fileBlocks fileIgnores] [err|]];
      cbn [snd].
    + destruct stop; [reflexivity|].
      rewrite bind_emit. cbn [snd stderrOf flat_map app].
      f_equal. apply (IH blocks ignores).
    + rewrite snd_bind, stderrOf_app, IH.
      destruct fileBlocks; destruct stop; reflexivity.
Qed.

(** X10.  Every block that [getModuleBlocks] returns was made by
    [block.New] from a block of a file of the directory that parsed, with
    the module block [b] as its module block, no parent block, and the one
    new context of the call. *)
Theorem loaded_blocks_belong_to_module {C : Collaborators}
    (b : Block) (dir : string) (stop : bool) (blk : Block) :
  In blk (fst (fst (fst (getModuleBlocks b dir stop)))) ->
  exists files file fileBlock,
    LoadDirectory dir stop = Ok files
    /\ In file files /\ fileErrorOf file = None
    /\ In fileBlock (fileBlocksOf file)
    /\ blk = block_New fileBlock block_NewContext (Some b) None.
Proof.
  rewrite getModuleBlocks_result.
  destruct (LoadDirectory dir stop) as [files|err]; [|contradiction].
  assert (Hparsed : In blk (parsedBlocks b block_NewContext files) ->
                    exists files0 file fileBlock,
                      Ok files = Ok files0
                      /\ In file files0 /\ fileErrorOf file = None
                      /\ In fileBlock (fileBlocksOf file)
                      /\ blk = block_New fileBlock block_NewContext (Some b) None).
  { intros Hin. apply In_parsedBlocks in Hin as (file & fileBlock & H).
    now exists files, file, fileBlock. }
  destruct stop; [|exact Hparsed].
  destruct (firstError files); [contradiction|exact Hparsed].
Qed.

Lemma loaded_blocks_belong_to_module_witness :
  exists files file fileBlock,
    LoadDirectory (Collaborators := host) "/proj/modules/shared" false = Ok files
    /\ In file files /\ fileErrorOf file = None
    /\ In fileBlock (fileBlocksOf file)
    /\ block_New (Collaborators := host) "output.arn" tt
                 (Some (moduleBlock "s" "../shared")) None
       = block_New fileBlock block_NewContext
                   (Some (moduleBlock "s" "../shared")) None.
Proof.
  apply (loaded_blocks_belong_to_module (C := host)
           (moduleBlock "s" "../shared") "/proj/modules/shared" false).
  vm_compute. right. left. reflexivity.
Defined.

Lemma getModuleBlocksLoop_flag {C : Collaborators} b ctx files :
  firstError files = None ->
  forall blocks ignores,
    getModuleBlocksLoop b ctx false files blocks ignores
    = getModuleBlocksLoop b ctx true files blocks ignores.
Proof.
  induction files as [|file rest IH]; intros Hfirst blocks ignores;
    [reflexivity|].
  cbn [getModuleBlocksLoop firstError] in *. unfold fileErrorOf in Hfirst.
  destruct (LoadBlocksFromFile file) as [[fileBlocks fileIgnores] [err|]];
    cbn [snd] in Hfirst; [discriminate|].
  apply bind_ext. intros _. now apply IH.
Qed.

(** X11.  A module that loads with [stopOnHCLError] loads the same without
    it - the same definition and the same events - when [LoadDirectory]
    lists the same files for both values of the flag. *)
Theorem strict_load_is_tolerant_load {P : Platform} {C : Collaborators}
    (e : Evaluator) (b : Block) (d : ModuleDefinition) :
  (forall dir, LoadDirectory dir false = LoadDirectory dir true) ->
  fst (loadModule e b true) = Ok d ->
  loadModule e b false = loadModule e b true.
Proof.
  intros Hsame Hok.
  destruct (loadModule_Ok e b true d Hok)
    as (Hlabel & Hsource & blocks & ignores & Hres & Hget & _).
  rewrite !loadModule_resolution by assumption.
  rewrite Hres. do 2 apply bind_emit_ext.
  unfold loadResolved. f_equal.
  rewrite getModuleBlocks_result in Hget. unfold getModuleBlocks.
  rewrite Hsame.
  destruct (LoadDirectory (Path d) true) as [files|err]; [|reflexivity].
  destruct (firstError files) eqn:Ef; [discriminate|].
  now apply getModuleBlocksLoop_flag.
Qed.

Lemma strict_load_is_tolerant_load_witness :
  loadModule (rootEvaluator []) (moduleBlock "d" "./child") false
  = loadModule (rootEvaluator []) (moduleBlock "d" "./child") true.
Proof.
  pose (b := moduleBlock "d" "./child").
  pose (d := {| Name := "d"; Path := "/proj/modules/a/child"; Definition_ := b;
                Modules := [NewHCLModule "/proj" "/proj/modules/a/child"
                              [block_New "aws_s3_bucket.logs" tt (Some b) None]
                              ["ignore:main"]] |}).
  apply (strict_load_is_tolerant_load (rootEvaluator []) b d).
  - intros dir. reflexivity.
  - reflexivity.
Defined.

(* ===================================================================== *)
(** ** More about [loadModules]                                           *)
(* ===================================================================== *)

(** The events of the loader, kind by kind: a property that holds for each
    kind holds for everything that is written before the final report. *)
Section EventShapes.

Context {P : Platform} {C : Collaborators}.

Variable Q : event -> Prop.
Hypothesis Q_TimerStart : Q TimerStart.
Hypothesis Q_TimerStop : Q TimerStop.
Hypothesis Q_DebugAdded : forall n filename, Q (DebugAdded n filename).
Hypothesis Q_DebugLoaded : forall path range, Q (DebugLoaded path range).
Hypothesis Q_CounterModules : Q CounterModules.
Hypothesis Q_hcl : forall x, Q (Stderr ("WARNING: HCL error: " ++ x ++ NL)).
Hypothesis Q_failed :
  forall x, Q (Stderr ("WARNING: Failed to load module: " ++ x ++ NL)).

Lemma getModuleBlocks_events b dir stop :
  Forall Q (snd (getModuleBlocks b dir stop)).
Proof.
  unfold getModuleBlocks.
  destruct (LoadDirectory dir stop) as [files|err]; [|constructor].
  generalize (@nil Block) (@nil Ignore).
  induction files as [|file rest IH]; intros blocks ignores; [constructor|].
  cbn [getModuleBlocksLoop].
  destruct (LoadBlocksFromFile file) as [[fileBlocks fileIgnores] [err|]].
  - destruct stop; [constructor|].
    rewrite bind_emit. constructor; [apply Q_hcl|apply IH].
  - rewrite snd_bind. apply Forall_app. split; [|apply IH].
    destruct fileBlocks; repeat constructor. apply Q_DebugAdded.
Qed.

Lemma loadModule_events e b stop : Forall Q (snd (loadModule e b stop)).
Proof.
  assert (Hres : forall source dir,
            Forall Q (snd (loadResolved e b source dir stop))).
  { intros source dir. unfold loadResolved. rewrite snd_bind.
    apply Forall_app. split; [apply getModuleBlocks_events|].
    destruct (fst (getModuleBlocks b dir stop)) as [[blocks ignores] [err|]];
      [constructor|].
    rewrite !bind_emit. repeat constructor;
      [apply Q_DebugLoaded|apply Q_CounterModules]. }
  unfold loadModule.
  destruct (String.eqb (Label b) EmptyString); [constructor|].
  rewrite !bind_emit. cbn [snd].
  constructor; [apply Q_TimerStart|]. constructor; [apply Q_TimerStop|].
  destruct (String.eqb (readSource (Attributes b)) EmptyString); [constructor|].
  destruct (String.eqb _ EmptyString); [|apply Hres].
  destruct (negb _ && negb _); [constructor|apply Hres].
Qed.

Lemma loadModulesLoop_events e stop expanded : forall defs errs,
  Forall Q (snd (loadModulesLoop e stop expanded defs errs)).
Proof.
  induction expanded as [|b rest IH]; intros defs errs; [constructor|].
  cbn [loadModulesLoop].
  destruct (String.eqb (Label b) EmptyString); [apply IH|].
  rewrite snd_bind. apply Forall_app. split; [apply loadModule_events|].
  destruct (fst (loadModule e b stop)) as [d|err]; [apply IH|].
  destruct (errors_As err); [apply IH|].
  rewrite bind_emit. constructor; [apply Q_failed|apply IH].
Qed.

End EventShapes.

Lemma reportLoadErrors_sources errs :
  reportLoadErrors errs
  = match map source errs with
    | [] => []
    | _ :: _ =>
        reportHeader
        :: map (fun s => Stderr (" - " ++ s ++ NL)) (map source errs)
    end.
Proof. destruct errs as [|m errs]; [reflexivity|]. now rewrite map_map. Qed.

Lemma failingSources_In {P : Platform} {C : Collaborators} e stop expanded s :
  In s (failingSources e stop expanded)
  <-> exists b, In b expanded /\ failsWith e stop b s.
Proof.
  unfold failingSources, failsWith. rewrite in_flat_map. split.
  - intros (b & Hin & Hs). exists b. split; [assumption|].
    destruct (String.eqb (Label b) EmptyString) eqn:El; [contradiction|].
    apply String.eqb_neq in El. split; [assumption|].
    destruct (fst (loadModule e b stop)) as [d|[msg|[s0 cause]]];
      try contradiction.
    destruct Hs as [<-|[]]. now exists cause.
  - intros (b & Hin & Hl & cause & Hc). exists b. split; [assumption|].
    apply String.eqb_neq in Hl. rewrite Hl, Hc. now left.
Qed.






Lemma count_event_none (Q : event -> Prop) (ev : event) (t : list event) :
  Forall Q t -> ~ Q ev -> count_occ event_eq_dec t ev = 0.
Proof.
  intros Hall Hev. apply count_occ_not_In. intros Hin.
  rewrite Forall_forall in Hall. now apply Hall in Hin.
Qed.




Lemma loadModule_timer {P : Platform} {C : Collaborators} e b stop :
  count_occ event_eq_dec (snd (loadModule e b stop)) TimerStart
  = (if String.eqb (Label b) EmptyString then 0 else 1)
  /\ count_occ event_eq_dec (snd (loadModule e b stop)) TimerStop
     = (if String.eqb (Label b) EmptyString then 0 else 1).
Proof.
  assert (Hres : forall source dir,
            count_occ event_eq_dec (snd (loadResolved e b source dir stop))
                      TimerStart = 0
            /\ count_occ event_eq_dec (snd (loadResolved e b source dir stop))
                         TimerStop = 0).
  { intros source dir. unfold loadResolved. rewrite snd_bind, !count_occ_app.
    rewrite (count_event_none (fun ev => ev <> TimerStart) TimerStart);
      [|apply getModuleBlocks_events; intros; discriminate|intros H; now apply H].
    rewrite (count_event_none (fun ev => ev <> TimerStop) TimerStop);
      [|apply getModuleBlocks_events; intros; discriminate|intros H; now apply H].
    destruct (fst (getModuleBlocks b dir stop)) as [[blocks ignores] [err|]];
      [now split|].
    rewrite !bind_emit. now split. }
  unfold loadModule.
  destruct (String.eqb (Label b) EmptyString); [now split|].
  rewrite !bind_emit. cbn [snd].
  rewrite !count_occ_cons_eq by reflexivity.
  rewrite !count_occ_cons_neq by discriminate.
  rewrite !count_occ_cons_eq by reflexivity.
  destruct (String.eqb (readSource (Attributes b)) EmptyString); [now split|].
  destruct (String.eqb _ EmptyString).
  - destruct (negb _ && negb _); [now split|].
    destruct (Hres (readSource (Attributes b))
                   (filepath_Join (modulePath e) (readSource (Attributes b))))
      as [-> ->].
    now split.
  - match goal with
    | |- context [loadResolved e b ?s ?d stop] =>
        destruct (Hres s d) as [-> ->]
    end.
    now split.
Qed.

Lemma reportLoadErrors_no_event (errs : list moduleLoadError) (ev : event) :
  (forall s, ev <> Stderr s) ->
  count_occ event_eq_dec (reportLoadErrors errs) ev = 0.
Proof.
  intros Hev. apply count_occ_not_In. rewrite reportLoadErrors_sources.
  destruct (map source errs) as [|s rest]; [intros []|].
  intros [Hin|Hin]; [symmetry in Hin; exact (Hev _ Hin)|].
  apply in_map_iff in Hin as (s0 & Hs & _). symmetry in Hs.
  exact (Hev _ Hs).
Qed.

Lemma loadModulesLoop_timer {P : Platform} {C : Collaborators}
    e stop expanded : forall defs errs,
  count_occ event_eq_dec
    (snd (loadModulesLoop e stop expanded defs errs)) TimerStart
  = List.length
      (filter (fun b => negb (String.eqb (Label b) EmptyString)) expanded)
  /\ count_occ event_eq_dec
       (snd (loadModulesLoop e stop expanded defs errs)) TimerStop
     = List.length
         (filter (fun b => negb (String.eqb (Label b) EmptyString)) expanded).
Proof.
  induction expanded as [|b rest IH]; intros defs errs; [now split|].
  cbn [loadModulesLoop filter].
  pose proof (loadModule_timer e b stop) as [Hs Hp].
  destruct (String.eqb (Label b) EmptyString); cbn [negb]; [apply IH|].
  rewrite snd_bind, !count_occ_app, Hs, Hp. cbn [List.length].
  destruct (fst (loadModule e b stop)) as [d|err].
  - destruct (IH (defs ++ [d])%list errs) as [-> ->]. now split.
  - destruct (errors_As err) as [m|].
    + match goal with
      | |- context [loadModulesLoop e stop rest defs ?l] =>
          destruct (IH defs l) as [-> ->]
      end.
      now split.
    + rewrite bind_emit. cbn [snd].
      rewrite !count_occ_cons_neq by discriminate.
      destruct (IH defs errs) as [-> ->]. now split.
Qed.

(** X16.  The scan of the metadata stops at the first entry for the key:
    with entries in front of it that have other keys, [loadModule] loads
    from the directory of that entry, whatever entries follow it. *)
Theorem first_metadata_entry_decides {P : Platform} {C : Collaborators}
    (e : Evaluator) (b : Block) (stop : bool)
    (pre : list ModuleMetadata) (entry : ModuleMetadata)
    (post : list ModuleMetadata) :
  Label b <> EmptyString ->
  readSource (Attributes b) <> EmptyString ->
  moduleMetadata e = Some {| metadata_Modules := pre ++ entry :: post |} ->
  forallb (fun module =>
             negb (String.eqb (Key module) (getModuleKeyName e (Label b)))) pre
  = true ->
  Key entry = getModuleKeyName e (Label b) ->
  loadModule e b stop
  = (emit TimerStart ;;; emit TimerStop ;;;
     loadResolved e b (readSource (Attributes b))
       (filepath_Clean (filepath_Join (projectRootPath e) (Dir entry))) stop).
Proof.
  intros Hlabel Hsource Hmeta Hpre Hkey.
  rewrite (loadModule_resolution e b stop Hlabel Hsource).
  unfold resolution, metadataEntry. rewrite Hmeta. cbn [metadata_Modules].
  assert (Hfind : find (fun module =>
                          String.eqb (Key module) (getModuleKeyName e (Label b)))
                       (pre ++ entry :: post) = Some entry).
  { clear Hmeta. induction pre as [|m pre IH]; cbn [app find].
    - apply String.eqb_eq in Hkey. now rewrite Hkey.
    - cbn [forallb] in Hpre. apply andb_true_iff in Hpre as [Hm Hpre].
      apply negb_true_iff in Hm. rewrite Hm. now apply IH. }
  now rewrite Hfind.
Qed.

Lemma first_metadata_entry_decides_witness :
  exists d,
    fst (loadModule
           {| moduleName := "root"; blocks := [];
              moduleMetadata :=
                Some {| metadata_Modules :=
                          [ {| Key := "y"; Dir := "vendor/y" |};
                            {| Key := "x"; Dir := "vendor/x" |};
                            {| Key := "x"; Dir := "elsewhere" |} ] |};
              projectRootPath := "/proj"; modulePath := "/proj/modules/a" |}
           (moduleBlock "x" "git::https://example.com/x.git") true) = Ok d
    /\ Path d = "/proj/vendor/x".
Proof.
  rewrite (first_metadata_entry_decides _
             (moduleBlock "x" "git::https://example.com/x.git") true
             [ {| Key := "y"; Dir := "vendor/y" |} ]
             {| Key := "x"; Dir := "vendor/x" |}
             [ {| Key := "x"; Dir := "elsewhere" |} ]);
    try (discriminate || reflexivity).
  eexists. split; reflexivity.
Defined.

(** A [moduleLoadError] of [loadModule] carries the source of the block. *)
Lemma loadModule_LoadError_source {P : Platform} {C : Collaborators}
    e b stop s cause :
  fst (loadModule e b stop) = Err (LoadError (Build_moduleLoadError s cause)) ->
  s = readSource (Attributes b).
Proof.
  intros Herr.
  destruct (String.eqb (Label b) EmptyString) eqn:El.
  { apply String.eqb_eq in El.
    rewrite (loadModule_no_label e b stop El) in Herr. discriminate. }
  apply String.eqb_neq in El.
  destruct (String.eqb (readSource (Attributes b)) EmptyString) eqn:Es.
  { apply String.eqb_eq in Es.
    rewrite (loadModule_no_source e b stop El Es) in Herr. discriminate. }
  apply String.eqb_neq in Es.
  rewrite (loadModule_resolution e b stop El Es), !bind_emit in Herr.
  cbn [fst] in Herr. unfold resolution in Herr.
  destruct (metadataEntry e b) as [module|].
  - rewrite loadResolved_fst in Herr.
    destruct (fst (getModuleBlocks b _ stop)) as [[blocks ignores] [err|]];
      [now injection Herr|discriminate].
  - destruct (localSource _).
    + rewrite loadResolved_fst in Herr.
      destruct (fst (getModuleBlocks b _ stop)) as [[blocks ignores] [err|]];
        [now injection Herr|discriminate].
    + cbn in Herr. now injection Herr.
Qed.

(** X17.  A line of the final report names a source as it is written in a
    module block: an expanded block with a label whose source it is and
    that failed with a [moduleLoadError] for this source. *)
Theorem report_names_written_sources {P : Platform} {C : Collaborators}
    (e : Evaluator) (stop : bool) (s : string) :
  In (Stderr (" - " ++ s ++ NL)) (snd (loadModules e stop)) ->
  exists b cause,
    In b (expandBlocks e (OfType (blocks e) "module"))
    /\ Label b <> EmptyString
    /\ readSource (Attributes b) = s
    /\ fst (loadModule e b stop) = Err (LoadError (Build_moduleLoadError s cause)).
Proof.
  unfold loadModules.
  set (expanded := expandBlocks e (OfType (blocks e) "module")).
  rewrite loadModulesOf_eq. cbn [snd]. intros Hin.
  apply in_app_iff in Hin as [Hin|Hin].
  { pose proof (loadModulesLoop_trace e stop expanded [] []) as Ht.
    rewrite Forall_forall in Ht. apply Ht in Hin. discriminate. }
  rewrite reportLoadErrors_sources in Hin.
  destruct (map source _) as [|s0 rest] eqn:Es; [contradiction|].
  destruct Hin as [Hin|Hin]; [discriminate|].
  apply in_map_iff in Hin as (s1 & Heq & Hs1).
  injection Heq as Heq. apply append_NL_inj in Heq. subst s1.
  rewrite <- Es in Hs1.
  apply loadModulesLoop_sources in Hs1 as [[]|(b & Hb & Hlabel & cause & Hc)].
  exists b, cause. repeat split; try assumption.
  symmetry. exact (loadModule_LoadError_source e b stop s cause Hc).
Qed.

Lemma report_names_written_sources_witness :
  exists b cause,
    In b [moduleBlock "a" "s3::bucket/path"]
    /\ Label b <> EmptyString
    /\ readSource (Attributes b) = "s3::bucket/path"
    /\ fst (loadModule (rootEvaluator [moduleBlock "a" "s3::bucket/path"]) b true)
       = Err (LoadError (Build_moduleLoadError "s3::bucket/path" cause)).
Proof.
  change [moduleBlock "a" "s3::bucket/path"]
    with (expandBlocks (rootEvaluator [moduleBlock "a" "s3::bucket/path"])
            (OfType (blocks (rootEvaluator [moduleBlock "a" "s3::bucket/path"]))
                    "module")) at 1.
  apply (report_names_written_sources
           (rootEvaluator [moduleBlock "a" "s3::bucket/path"]) true
           "s3::bucket/path").
  vm_compute. right. right. right. left. reflexivity.
Defined.

(* ===================================================================== *)
(** ** Runs that panic and runs that return                               *)
(* ===================================================================== *)

Lemma readSourceRun_returned attrs :
  forall source,
  existsb nullSourceAttribute attrs = false ->
  readSourceRun attrs source
  = Returned
      (fold_left
         (fun source attr =>
            if String.eqb (attr_Name attr) "source"
            then if isString (attr_Value attr)
                 then AsString (attr_Value attr)
                 else source
            else source)
         (map attributeOf attrs) source).
Proof.
  induction attrs as [|attr rest IH]; intros source Hnull; [reflexivity|].
  cbn [existsb] in Hnull. apply orb_false_iff in Hnull as [Hattr Hrest].
  cbn [readSourceRun map fold_left attributeOf attr_Name attr_Value].
  unfold nullSourceAttribute in Hattr.
  destruct (String.eqb (ea_Name attr) "source"); [|now apply IH].
  destruct (ea_Value attr) as [v|]; [|discriminate].
  cbn [typeIsString AsStringRun].
  destruct (isString v); now apply IH.
Qed.

Lemma readSourceRun_panicked attrs :
  forall source,
  existsb nullSourceAttribute attrs = true ->
  readSourceRun attrs source = Panicked.
Proof.
  induction attrs as [|attr rest IH]; intros source Hnull; [discriminate|].
  cbn [existsb] in Hnull. cbn [readSourceRun].
  unfold nullSourceAttribute in Hnull.
  destruct (String.eqb (ea_Name attr) "source").
  - destruct (ea_Value attr) as [v|]; [|reflexivity].
    cbn [typeIsString AsStringRun]. cbn [andb orb] in Hnull.
    destruct (isString v); now apply IH.
  - now apply IH.
Qed.

Lemma loadModule_loadFrom {P : Platform} {C : Collaborators}
    (e : Evaluator) (b : Block) (stop : bool) :
  Label b <> EmptyString ->
  loadModule e b stop
  = (fst (loadFrom e b (readSource (Attributes b)) stop),
     TimerStart :: TimerStop
       :: snd (loadFrom e b (readSource (Attributes b)) stop)).
Proof.
  intros Hlabel. unfold loadModule.
  apply String.eqb_neq in Hlabel. rewrite Hlabel. rewrite !bind_emit.
  fold (loadFrom e b (readSource (Attributes b)) stop).
  now destruct (loadFrom e b (readSource (Attributes b)) stop).
Qed.

Section RunFacts.

Context {P : Platform} {C : Collaborators}.

Lemma loadModuleRun_returned (e : Evaluator) (eb : EvaluatedBlock)
    (stop : bool) :
  nullSource eb = false ->
  loadModuleRun e eb stop
  = (Returned (fst (loadModule e (blockOf eb) stop)),
     snd (loadModule e (blockOf eb) stop)).
Proof.
  intros Hnull. unfold loadModuleRun, nullSource in *.
  change (Label (blockOf eb)) with (eb_Label eb).
  destruct (String.eqb (eb_Label eb) EmptyString) eqn:Hlabel.
  - unfold loadModule. change (Label (blockOf eb)) with (eb_Label eb).
    now rewrite Hlabel.
  - cbn [negb andb] in Hnull.
    rewrite (readSourceRun_returned _ _ Hnull).
    rewrite (loadModule_loadFrom e (blockOf eb) stop)
      by (now apply String.eqb_neq).
    unfold readSource. cbn [Attributes blockOf fst snd].
    now destruct (loadFrom e (blockOf eb) _ stop).
Qed.

Lemma loadModuleRun_panicked (e : Evaluator) (eb : EvaluatedBlock)
    (stop : bool) :
  nullSource eb = true ->
  loadModuleRun e eb stop = (Panicked, [TimerStart]).
Proof.
  intros Hnull. unfold loadModuleRun, nullSource in *.
  change (Label (blockOf eb)) with (eb_Label eb).
  apply andb_true_iff in Hnull as [Hlabel Hattr].
  apply negb_true_iff in Hlabel. rewrite Hlabel.
  now rewrite (readSourceRun_panicked _ _ Hattr).
Qed.

(** Without a null source, the loop on the evaluated blocks is the loop of
    the first part on their blocks. *)
Lemma loadModulesLoopRun_returned (e : Evaluator) (stop : bool)
    (expanded : list EvaluatedBlock) :
  forallb (fun eb => negb (nullSource eb)) expanded = true ->
  forall defs errs,
  loadModulesLoopRun e stop expanded defs errs
  = (Returned (fst (loadModulesLoop e stop (map blockOf expanded) defs errs)),
     snd (loadModulesLoop e stop (map blockOf expanded) defs errs)).
Proof.
  induction expanded as [|eb rest IH]; intros Hnull defs errs;
    [reflexivity|].
  cbn [forallb] in Hnull. apply andb_true_iff in Hnull as [Heb Hrest].
  apply negb_true_iff in Heb. specialize (IH Hrest).
  cbn [loadModulesLoopRun loadModulesLoop map].
  change (Label (blockOf eb)) with (eb_Label eb).
  destruct (String.eqb (eb_Label eb) EmptyString); [apply IH|].
  rewrite (loadModuleRun_returned e eb stop Heb).
  rewrite fst_bind, snd_bind.
  destruct (loadModule e (blockOf eb) stop) as [[d|err] t]; cbn [fst snd].
  - now rewrite IH.
  - destruct (errors_As err) as [loadErr|]; [now rewrite IH|].
    rewrite IH, bind_emit. reflexivity.
Qed.

(** The first block with a null source ends the loop: what was written
    until then is what the blocks in front of it wrote, and the start of
    the timer. *)
Lemma loadModulesLoopRun_panicked (e : Evaluator) (stop : bool)
    (pre : list EvaluatedBlock) (eb : EvaluatedBlock)
    (post : list EvaluatedBlock) :
  forallb (fun eb => negb (nullSource eb)) pre = true ->
  nullSource eb = true ->
  forall defs errs,
  loadModulesLoopRun e stop (pre ++ eb :: post) defs errs
  = (Panicked,
     (snd (loadModulesLoop e stop (map blockOf pre) defs errs)
        ++ [TimerStart])%list).
Proof.
  intros Hpre Heb.
  induction pre as [|eb' rest IH]; intros defs errs.
  - cbn [app loadModulesLoopRun map loadModulesLoop].
    rewrite (loadModuleRun_panicked e eb stop Heb).
    unfold nullSource in Heb. apply andb_true_iff in Heb as [Hlabel _].
    apply negb_true_iff in Hlabel. now rewrite Hlabel.
  - cbn [forallb] in Hpre. apply andb_true_iff in Hpre as [Heb' Hrest].
    apply negb_true_iff in Heb'. specialize (IH Hrest).
    cbn [app loadModulesLoopRun loadModulesLoop map].
    change (Label (blockOf eb')) with (eb_Label eb').
    destruct (String.eqb (eb_Label eb') EmptyString); [apply IH|].
    rewrite (loadModuleRun_returned e eb' stop Heb').
    rewrite snd_bind.
    destruct (loadModule e (blockOf eb') stop) as [[d|err] t]; cbn [fst snd].
    + now rewrite IH, app_assoc.
    + destruct (errors_As err) as [loadErr|]; [now rewrite IH, app_assoc|].
      rewrite IH, bind_emit. cbn [snd].
      now rewrite <- app_assoc.
Qed.

End RunFacts.

Lemma forallb_first_false {A} (f : A -> bool) (l : list A) :
  forallb f l = false ->
  exists pre x post,
    l = (pre ++ x :: post)%list /\ forallb f pre = true /\ f x = false.
Proof.
  induction l as [|a rest IH]; [discriminate|].
  cbn [forallb]. destruct (f a) eqn:Ha.
  - intros Hrest. destruct (IH Hrest) as (pre & x & post & -> & Hpre & Hx).
    exists (a :: pre), x, post. cbn [forallb]. now rewrite Ha.
  - intros _. now exists [], a, rest.
Qed.

Lemma labelled_blockOf (expanded : list EvaluatedBlock) :
  List.length
    (filter (fun b => negb (String.eqb (Label b) EmptyString))
            (map blockOf expanded))
  = List.length
      (filter (fun eb => negb (String.eqb (eb_Label eb) EmptyString)) expanded).
Proof.
  induction expanded as [|eb rest IH]; [reflexivity|].
  cbn [map filter]. change (Label (blockOf eb)) with (eb_Label eb).
  destruct (negb (String.eqb (eb_Label eb) EmptyString));
    cbn [List.length]; now rewrite IH.
Qed.

Lemma blockOf_evaluatedBlock (b : Block) : blockOf (evaluatedBlock b) = b.
Proof.
  destruct b as [type label attrs range]. unfold blockOf, evaluatedBlock.
  cbn. f_equal. rewrite map_map. rewrite <- (map_id attrs) at 2.
  apply map_ext. now intros [name value].
Qed.

Lemma nullSource_evaluatedBlock (b : Block) :
  nullSource (evaluatedBlock b) = false.
Proof.
  unfold nullSource. apply andb_false_iff. right.
  cbn [eb_Attributes evaluatedBlock].
  induction (Attributes b) as [|attr rest IH]; [reflexivity|].
  cbn [map existsb]. rewrite IH. unfold nullSourceAttribute.
  cbn [ea_Name ea_Value]. now rewrite andb_false_r.
Qed.

Lemma readSourceRun_other_names (attrs : list EvaluatedAttribute) :
  forall source,
  ~ In "source" (map ea_Name attrs) ->
  readSourceRun attrs source = Returned source.
Proof.
  induction attrs as [|attr rest IH]; intros source Hnot; [reflexivity|].
  cbn [readSourceRun]. cbn [map In] in Hnot.
  destruct (String.eqb (ea_Name attr) "source") eqn:Hname.
  - apply String.eqb_eq in Hname. tauto.
  - apply IH. tauto.
Qed.

(** C9.  A failure of one module block does leave [loadModules].  The
    module block [n] has [source = true ? null : "./child"], the null of
    type string: the test of line 115 holds for it, [AsString] panics at
    line 116, and nothing in [loadModule] or [loadModules] recovers.
    Between two blocks that load, and with either value of
    [stopOnHCLError], the call does not return: the definition of the
    block in front of [n] is lost with it, the block behind [n] is never
    loaded, and the timer stays started.  The same blocks without [n]
    return both definitions. *)
Theorem null_source_escapes :
  (forall stop,
     loadModulesOfRun (rootEvaluator []) stop
       [evaluatedBlock (moduleBlock "d" "./child"); nullSourceBlock;
        evaluatedBlock (moduleBlock "e" "./child")]
     = (Panicked,
        [TimerStart; TimerStop; DebugAdded 1 "main.tf";
         DebugLoaded "/proj/modules/a/child" "main.tf:3,1-11";
         CounterModules; TimerStart]))
  /\ (forall stop,
        exists d e t,
          loadModulesOfRun (rootEvaluator []) stop
            [evaluatedBlock (moduleBlock "d" "./child");
             evaluatedBlock (moduleBlock "e" "./child")]
          = (Returned [d; e], t)
          /\ Name d = "d" /\ Name e = "e").
Proof.
  split.
  - intros stop.
    (* the block [d] loads, then [n] panics behind the start of the timer *)
    assert (Hd : exists d,
               loadModuleRun (rootEvaluator [])
                 (evaluatedBlock (moduleBlock "d" "./child")) stop
               = (Returned (Ok d),
                  [TimerStart; TimerStop; DebugAdded 1 "main.tf";
                   DebugLoaded "/proj/modules/a/child" "main.tf:3,1-11";
                   CounterModules]))
      by (destruct stop; eexists; reflexivity).
    assert (Hn : loadModuleRun (rootEvaluator []) nullSourceBlock stop
                 = (Panicked, [TimerStart])) by reflexivity.
    destruct Hd as [d Hd]. unfold loadModulesOfRun.
    cbn [loadModulesLoopRun].
    change (String.eqb (eb_Label (evaluatedBlock (moduleBlock "d" "./child")))
                       EmptyString) with false.
    change (String.eqb (eb_Label nullSourceBlock) EmptyString) with false.
    cbv iota. rewrite Hd, Hn. reflexivity.
  - intros stop.
    destruct stop; do 3 eexists; (split; [reflexivity|split; reflexivity]).
Qed.

(** X19.  A module block with a label whose source is the null of type
    string ends [loadModules] by the panic of [AsString], whatever the
    evaluator, the collaborators and [stopOnHCLError]: nothing is
    returned, the blocks behind it are not loaded, and what was written
    is what the blocks in front of it wrote and the start of the timer -
    so the report of the load failures collected until then is never
    written. *)
Theorem null_source_is_not_recovered {P : Platform} {C : Collaborators}
    (e : Evaluator) (stop : bool)
    (pre : list EvaluatedBlock) (eb : EvaluatedBlock)
    (post : list EvaluatedBlock) :
  forallb (fun eb => negb (nullSource eb)) pre = true ->
  nullSource eb = true ->
  loadModulesOfRun e stop (pre ++ eb :: post)
  = (Panicked,
     (snd (loadModulesLoop e stop (map blockOf pre) [] []) ++ [TimerStart])%list)
  /\ Forall (fun ev => ev <> reportHeader /\ reportLine ev = false)
            (snd (loadModulesOfRun e stop (pre ++ eb :: post))).
Proof.
  intros Hpre Heb. unfold loadModulesOfRun.
  rewrite (loadModulesLoopRun_panicked e stop pre eb post Hpre Heb).
  split; [reflexivity|]. cbn [snd].
  apply Forall_app. split; [|now repeat constructor].
  assert (Hheader : Forall (fun ev => ev <> reportHeader)
                      (snd (loadModulesLoop e stop (map blockOf pre) [] []))).
  { apply loadModulesLoop_events; intros; discriminate. }
  pose proof (loadModulesLoop_trace e stop (map blockOf pre) [] []) as Hline.
  rewrite Forall_forall in *. intros ev Hin. split; auto.
Qed.

Lemma null_source_is_not_recovered_witness :
  fst (loadModulesOfRun (rootEvaluator []) false
         [evaluatedBlock (moduleBlock "a" "s3::bucket/path"); nullSourceBlock;
          evaluatedBlock (moduleBlock "d" "./child")])
  = Panicked
  /\ ~ In (Stderr (" - s3::bucket/path" ++ NL))
          (snd (loadModulesOfRun (rootEvaluator []) false
                  [evaluatedBlock (moduleBlock "a" "s3::bucket/path");
                   nullSourceBlock;
                   evaluatedBlock (moduleBlock "d" "./child")])).
Proof.
  destruct (null_source_is_not_recovered (rootEvaluator []) false
              [evaluatedBlock (moduleBlock "a" "s3::bucket/path")]
              nullSourceBlock
              [evaluatedBlock (moduleBlock "d" "./child")]
              eq_refl eq_refl) as [Hrun Hwritten].
  split.
  - change ([evaluatedBlock (moduleBlock "a" "s3::bucket/path")]
              ++ nullSourceBlock :: [evaluatedBlock (moduleBlock "d" "./child")])%list
      with [evaluatedBlock (moduleBlock "a" "s3::bucket/path"); nullSourceBlock;
            evaluatedBlock (moduleBlock "d" "./child")] in Hrun.
    now rewrite Hrun.
  - intros Hin. rewrite Forall_forall in Hwritten.
    destruct (Hwritten _ Hin) as [_ Hline]. discriminate Hline.
Defined.

(** X20.  When no module block with a label has the null of type string
    as its source, [loadModules] returns: its definitions are those of
    the blocks that load, in their order, and it writes what the loader
    on values with content writes for these blocks. *)
Theorem run_without_null_returns {P : Platform} {C : Collaborators}
    (e : Evaluator) (stop : bool) (expanded : list EvaluatedBlock) :
  forallb (fun eb => negb (nullSource eb)) expanded = true ->
  loadModulesOfRun e stop expanded
  = (Returned (loaded e stop (map blockOf expanded)),
     snd (loadModulesOf e stop (map blockOf expanded))).
Proof.
  intros Hnull. unfold loadModulesOfRun.
  rewrite (loadModulesLoopRun_returned e stop expanded Hnull).
  rewrite loadModulesOf_eq. cbn [snd].
  pose proof (loadModulesLoop_defs e stop (map blockOf expanded) [] [])
    as Hdefs.
  destruct (loadModulesLoop e stop (map blockOf expanded) [] [])
    as [[defs errs] t].
  cbn [fst snd app] in *. now rewrite Hdefs.
Qed.

Lemma run_without_null_returns_witness :
  exists d t,
    loadModulesOfRun (rootEvaluator []) true
      [evaluatedBlock (moduleBlock "a" "s3::bucket/path");
       evaluatedBlock (moduleBlock "d" "./child")]
    = (Returned [d], t)
    /\ Name d = "d" /\ Path d = "/proj/modules/a/child".
Proof.
  rewrite (run_without_null_returns (rootEvaluator []) true
             [evaluatedBlock (moduleBlock "a" "s3::bucket/path");
              evaluatedBlock (moduleBlock "d" "./child")] eq_refl).
  do 2 eexists. split; [reflexivity|split; reflexivity].
Defined.

(** X22.  On module blocks whose values all have content [loadModules]
    returns, and its definitions and what it writes are those of the
    loader on values with content. *)
Theorem run_on_values_with_content {P : Platform} {C : Collaborators}
    (e : Evaluator) (stop : bool) :
  loadModulesOfRun e stop
    (map evaluatedBlock (expandBlocks e (OfType (blocks e) "module")))
  = (Returned (fst (loadModules e stop)), snd (loadModules e stop)).
Proof.
  unfold loadModules, loadModulesOfRun.
  set (expanded := expandBlocks e (OfType (blocks e) "module")).
  assert (Hnull : forallb (fun eb => negb (nullSource eb))
                          (map evaluatedBlock expanded) = true).
  { apply forallb_forall. intros eb Hin.
    apply in_map_iff in Hin as (b & <- & _).
    now rewrite nullSource_evaluatedBlock. }
  assert (Hblocks : map blockOf (map evaluatedBlock expanded) = expanded).
  { rewrite map_map. rewrite <- (map_id expanded) at 2.
    apply map_ext. exact blockOf_evaluatedBlock. }
  rewrite (loadModulesLoopRun_returned e stop _ Hnull), Hblocks.
  rewrite loadModulesOf_eq.
  now destruct (loadModulesLoop e stop expanded [] []) as [[defs errs] t].
Qed.

(** X4.  The evaluation timer follows the run of [loadModules].  In a run
    that returns it is started once for every expanded module block with
    a label and stopped as often; a block without a label does not touch
    it.  In a run that ends by the panic of [AsString] it is started once
    more than it is stopped: lines 108-121 leave it started. *)
Theorem timer_follows_the_run {P : Platform} {C : Collaborators}
    (e : Evaluator) (stop : bool) (expanded : list EvaluatedBlock) :
  match fst (loadModulesOfRun e stop expanded) with
  | Returned _ =>
      count_occ event_eq_dec (snd (loadModulesOfRun e stop expanded)) TimerStart
      = List.length
          (filter (fun eb => negb (String.eqb (eb_Label eb) EmptyString))
                  expanded)
      /\ count_occ event_eq_dec (snd (loadModulesOfRun e stop expanded))
                   TimerStop
         = count_occ event_eq_dec (snd (loadModulesOfRun e stop expanded))
                     TimerStart
  | Panicked =>
      count_occ event_eq_dec (snd (loadModulesOfRun e stop expanded)) TimerStart
      = S (count_occ event_eq_dec (snd (loadModulesOfRun e stop expanded))
                     TimerStop)
  end.
Proof.
  unfold loadModulesOfRun.
  destruct (forallb (fun eb => negb (nullSource eb)) expanded) eqn:Hnull.
  - rewrite (loadModulesLoopRun_returned e stop expanded Hnull).
    destruct (loadModulesLoop_timer e stop (map blockOf expanded) [] [])
      as [Hstart Hstop].
    destruct (loadModulesLoop e stop (map blockOf expanded) [] [])
      as [[defs errs] t].
    cbn [fst snd] in *. rewrite !count_occ_app.
    rewrite !reportLoadErrors_no_event by (intros; discriminate).
    rewrite !Nat.add_0_r, Hstart, Hstop, labelled_blockOf. now split.
  - apply forallb_first_false in Hnull
      as (pre & eb & post & -> & Hpre & Heb).
    apply negb_false_iff in Heb.
    rewrite (loadModulesLoopRun_panicked e stop pre eb post Hpre Heb).
    cbn [fst snd]. rewrite !count_occ_app.
    destruct (loadModulesLoop_timer e stop (map blockOf pre) [] [])
      as [-> ->].
    cbn. lia.
Qed.

(** X8.  The attribute called "source" decides what [loadModule] reads
    in lines 110-119, wherever it stands among the attributes of the
    block (their names are distinct): its text when it is a string with
    content, the empty string - the error of line 124 - when it is no
    string, and the panic of [AsString] when it is the null of type
    string. *)
Theorem source_attribute_decides (attrs : list EvaluatedAttribute)
    (a : EvaluatedAttribute) :
  NoDup (map ea_Name attrs) ->
  In a attrs ->
  ea_Name a = "source" ->
  readSourceRun attrs EmptyString
  = match ea_Value a with
    | known v => Returned (if isString v then AsString v else EmptyString)
    | nullString => Panicked
    end.
Proof.
  intros Hnodup Hin Hname.
  assert (Hany : forall source,
            readSourceRun attrs source
            = match ea_Value a with
              | known v => Returned (if isString v then AsString v else source)
              | nullString => Panicked
              end); [|apply Hany].
  induction attrs as [|attr rest IH]; intros source; [contradiction|].
  cbn [map] in Hnodup. inversion Hnodup as [|name names Hfresh Hrest]; subst.
  cbn [readSourceRun]. destruct Hin as [->|Hin].
  - rewrite Hname in *. cbn [String.eqb Ascii.eqb Bool.eqb].
    destruct (ea_Value a) as [v|]; [|reflexivity].
    cbn [typeIsString AsStringRun].
    destruct (isString v); now apply readSourceRun_other_names.
  - destruct (String.eqb (ea_Name attr) "source") eqn:Hattr.
    + apply String.eqb_eq in Hattr. exfalso. apply Hfresh.
      rewrite Hattr, <- Hname. now apply in_map.
    + now apply IH.
Qed.

Lemma source_attribute_decides_witness :
  readSourceRun
    [ {| ea_Name := "version"; ea_Value := known (cty_String "1.0") |};
      {| ea_Name := "source"; ea_Value := known (cty_String "./child") |};
      {| ea_Name := "count"; ea_Value := known cty_Number |} ]
    EmptyString
  = Returned "./child".
Proof.
  apply (source_attribute_decides
           [ {| ea_Name := "version"; ea_Value := known (cty_String "1.0") |};
             {| ea_Name := "source"; ea_Value := known (cty_String "./child") |};
             {| ea_Name := "count"; ea_Value := known cty_Number |} ]
           {| ea_Name := "source"; ea_Value := known (cty_String "./child") |}).
  - repeat constructor; cbn; intuition discriminate.
  - cbn. tauto.
  - reflexivity.
Defined.

(** X21.  An index with a closing bracket in it is not removed whole: the
    expression stops at the first closing bracket, so the key of the
    instance of [x] for the [for_each] key "a]b" is not [x], and below
    the root the key of the instance of [c] for the key "k]" is not
    [a.b.c]. *)
Theorem bracket_in_index_stays_in_key :
  getModuleKeyName (rootEvaluator []) ("x[" ++ quoted "a]b" ++ "]")
  = "xb" ++ String "034"%char "]"
  /\ getModuleKeyName nestedEvaluator ("c[" ++ quoted "k]" ++ "]")
     = "a.b.c" ++ String "034"%char "]".
Proof.
  split.
  - unfold getModuleKeyName. cbn [moduleName rootEvaluator].
    cbn [String.eqb Ascii.eqb Bool.eqb]. reflexivity.
  - unfold getModuleKeyName. cbn [moduleName nestedEvaluator]. reflexivity.
Qed.
